(** * photomosaics/process_source.py: batch thumbnailer

    A shallow embedding of [process_source.py] and the properties of its
    default output path derivation and of its per-file processing loop.

    Paths are Python [str] values, embedded as [string].  The functions of
    [os.path] that the script calls are embedded for the POSIX flavour
    ([os.sep = "/"], module [posixpath] of the Python standard library). *)

From Stdlib Require Import ZArith Ascii String.
From stdpp Require Import base strings list gmap.

Local Open Scope Z_scope.

(** ** Python [str] helpers *)

Module pystr.

Definition is_sep (c : ascii) : bool := Ascii.eqb c "/"%char.
Definition is_dot (c : ascii) : bool := Ascii.eqb c "."%char.

(** [c in s] for a one-character [c]. *)
Fixpoint contains (p : ascii → bool) (s : string) : bool :=
  match s with
  | EmptyString => false
  | String c s' => p c || contains p s'
  end.

(** [s.startswith("/")] and [s.endswith("/")]. *)
Definition startswith_sep (s : string) : bool :=
  match s with
  | String c _ => is_sep c
  | EmptyString => false
  end.

Fixpoint endswith_sep (s : string) : bool :=
  match s with
  | EmptyString => false
  | String c EmptyString => is_sep c
  | String _ s' => endswith_sep s'
  end.

(** [s == "/" * len(s)]. *)
Fixpoint all_sep (s : string) : bool :=
  match s with
  | EmptyString => true
  | String c s' => is_sep c && all_sep s'
  end.

(** [s.rstrip("/")]. *)
Fixpoint rstrip_sep (s : string) : string :=
  match s with
  | EmptyString => EmptyString
  | String c s' => if all_sep s then EmptyString else String c (rstrip_sep s')
  end.

(** [s.split("/")]: never the empty list, [""] splits into [[""]]. *)
Fixpoint split (s : string) : list string :=
  match s with
  | EmptyString => [EmptyString]
  | String c s' =>
      if is_sep c then EmptyString :: split s'
      else match split s' with
           | [] => [String c EmptyString]
           | h :: t => String c h :: t
           end
  end.

(** ["/".join(l)]. *)
Fixpoint sep_join (l : list string) : string :=
  match l with
  | [] => EmptyString
  | x :: t =>
      match t with
      | [] => x
      | _ :: _ => x +:+ "/" +:+ sep_join t
      end
  end.

(** [(s[:i], s[i:])] for [i = s.rfind(c) + 1], with [c] the characters that
    satisfy [p]: the cut is placed right after the last such character, and
    at 0 when there is none. *)
Fixpoint cut_after_last (p : ascii → bool) (s : string) : string * string :=
  match s with
  | EmptyString => (EmptyString, EmptyString)
  | String c s' =>
      if contains p s' then
        let '(h, t) := cut_after_last p s' in (String c h, t)
      else if p c then (String c EmptyString, s')
      else (EmptyString, s)
  end.

(** [(s[:i], s[i:])] for [i = s.rfind(c)], when [c] occurs in [s]. *)
Fixpoint cut_at_last (p : ascii → bool) (s : string) : option (string * string) :=
  match s with
  | EmptyString => None
  | String c s' =>
      match cut_at_last p s' with
      | Some (h, t) => Some (String c h, t)
      | None => if p c then Some (EmptyString, s) else None
      end
  end.

(** [parts.index(x)]: position of the first occurrence, [None] for the
    [ValueError] of an absent element. *)
Fixpoint index (x : string) (l : list string) : option nat :=
  match l with
  | [] => None
  | y :: t => if decide (y = x) then Some O else S <$> index x t
  end.

(** [x in parts]. *)
Definition mem (x : string) (l : list string) : bool := bool_decide (x ∈ l).

End pystr.

(** ** [os.path] on POSIX *)

Module posixpath.
Import pystr.

(** One round of the loop of [posixpath.join]. *)
Definition join_step (path b : string) : string :=
  if startswith_sep b then b
  else if bool_decide (path = "") || endswith_sep path then path +:+ b
  else path +:+ "/" +:+ b.

(** [os.path.join(a, *p)]. *)
Definition join (a : string) (p : list string) : string :=
  fold_left join_step p a.

(** [os.path.dirname(p)]. *)
Definition dirname (p : string) : string :=
  let head := fst (cut_after_last is_sep p) in
  if negb (bool_decide (head = "")) && negb (all_sep head)
  then rstrip_sep head else head.

(** [os.path.basename(p)]. *)
Definition basename (p : string) : string :=
  snd (cut_after_last is_sep p).

(** [os.path.splitext(p)]: the extension starts at the last dot of the last
    component, unless only dots precede it in that component. *)
Definition splitext (p : string) : string * string :=
  let '(dir, name) := cut_after_last is_sep p in
  match cut_at_last is_dot name with
  | Some (stem, ext) =>
      if contains (λ c, negb (is_dot c)) stem then (dir +:+ stem, ext)
      else (p, "")
  | None => (p, "")
  end.

(** The loop of [posixpath.normpath] over the components; [new_comps] is
    kept reversed, so that its last element is the head of [acc]. *)
Fixpoint normpath_comps (initial_slashes : nat) (acc comps : list string)
    : list string :=
  match comps with
  | [] => rev acc
  | comp :: rest =>
      if bool_decide (comp = "") || bool_decide (comp = ".")
      then normpath_comps initial_slashes acc rest
      else if negb (bool_decide (comp = ".."))
              || (bool_decide (initial_slashes = O) && bool_decide (acc = []))
              || match acc with
                 | last :: _ => bool_decide (last = "..")
                 | [] => false
                 end
      then normpath_comps initial_slashes (comp :: acc) rest
      else normpath_comps initial_slashes (tail acc) rest
  end.

(** [initial_slashes] of [posixpath.normpath]: 0, 1, or 2 for exactly two
    leading slashes. *)
Definition initial_slashes (path : string) : nat :=
  match path with
  | String c1 (String c2 (String c3 _)) =>
      if is_sep c1 then
        if is_sep c2 && negb (is_sep c3) then 2%nat else 1%nat
      else O
  | String c1 (String c2 EmptyString) =>
      if is_sep c1 then if is_sep c2 then 2%nat else 1%nat else O
  | String c1 EmptyString => if is_sep c1 then 1%nat else O
  | EmptyString => O
  end.

Fixpoint seps (n : nat) : string :=
  match n with
  | O => ""
  | S n' => String "/" (seps n')
  end.

(** [os.path.normpath(path)]. *)
Definition normpath (path : string) : string :=
  if bool_decide (path = "") then "."
  else
    let n := initial_slashes path in
    let comps := normpath_comps n [] (split path) in
    let path' := seps n +:+ sep_join comps in
    if bool_decide (path' = "") then "." else path'.

(** [os.path.abspath(path)], with the working directory [cwd] that
    [os.getcwd()] returns. *)
Definition abspath (cwd path : string) : string :=
  normpath (if startswith_sep path then path else join cwd [path]).

End posixpath.

(** ** The world of a run: file system, console and Pillow *)

Module runtime.
Import pystr.

(** A Python exception: its class name and [str(e)]. *)
Inductive exn := Exn (cls msg : string).

Definition str (e : exn) : string := let 'Exn _ msg := e in msg.

Definition ValueError : string → exn := Exn "ValueError".
Definition FileExistsError : string → exn := Exn "FileExistsError".
Definition NotADirectoryError : string → exn := Exn "NotADirectoryError".
Definition IsADirectoryError : string → exn := Exn "IsADirectoryError".
Definition FileNotFoundError : string → exn := Exn "FileNotFoundError".

Definition bytes := list Byte.byte.

(** What a path resolves to (symbolic links followed). *)
Inductive node :=
  | Dir
  | File (content : bytes).

Global Instance byte_eq_dec : EqDecision Byte.byte := Strings.Byte.byte_eq_dec.

Global Instance node_eq_dec : EqDecision node.
Proof. solve_decision. Defined.

(** What a run does to the outside, in order. *)
Inductive event :=
  | EvMakedirs (path : string)
  | EvOpen (path : string)
  | EvSave (path format : string) (quality : Z) (data : bytes)
  | EvPrint (line : string).

(** The file system maps a path, as the string that the program passes to
    the operating system, to what is there; two spellings of one place
    (["/d/a"] and ["/d/./a"]) are two keys.  The trace keeps the events of
    the run so far, oldest first. *)
Record world := World {
  fs : gmap string node;
  trace : list event
}.

Definition emit (e : event) (w : world) : world :=
  World (fs w) (trace w ++ [e]).

(** Computations that change the world and may raise. *)
Definition M (A : Type) : Type := world → world * (exn + A).

Global Instance M_ret : MRet M := λ A a w, (w, inr a).
Global Instance M_bind : MBind M := λ A B f m w,
  match m w with
  | (w', inl e) => (w', inl e)
  | (w', inr a) => f a w'
  end.

Definition raise {A} (e : exn) : M A := λ w, (w, inl e).

(** [try: body except Exception as e: handler(e)]; every exception of the
    embedding is an [Exception]. *)
Definition try_except {A} (body : M A) (handler : exn → M A) : M A := λ w,
  match body w with
  | (w', inl e) => handler e w'
  | (w', inr a) => (w', inr a)
  end.

(** [for x in l: body(x)]. *)
Fixpoint for_each {A} (l : list A) (body : A → M unit) : M unit :=
  match l with
  | [] => mret tt
  | x :: l' => body x ≫= λ _, for_each l' body
  end.

Definition print (line : string) : M unit := λ w, (emit (EvPrint line) w, inr tt).

(** *** The [os] module *)

Module os.

Definition isdir_fs (m : gmap string node) (p : string) : bool :=
  match m !! p with
  | Some Dir => true
  | _ => false
  end.

Definition isfile_fs (m : gmap string node) (p : string) : bool :=
  match m !! p with
  | Some (File _) => true
  | _ => false
  end.

Definition isdir (p : string) : M bool := λ w, (w, inr (isdir_fs (fs w) p)).
Definition isfile (p : string) : M bool := λ w, (w, inr (isfile_fs (fs w) p)).

(** The directories above [p]: ["/a"; "/a/b"] for ["/a/b/c"]. *)
Definition ancestors (p : string) : list string :=
  filter (λ a, a ≠ "")
    (omap (λ n, match n with
                | O => None
                | S _ => Some (sep_join (take n (split p)))
                end)
          (seq 0 (length (split p)))).

(** The file system after creating the missing directories of [dirs]. *)
Definition mkdir_all (dirs : list string) (m : gmap string node)
    : gmap string node :=
  foldr (λ d acc, <[d := Dir]> acc) m dirs.

(** [os.makedirs(p, exist_ok=True)]: nothing to do for an existing
    directory, an error where a regular file is in the way. *)
Definition makedirs (p : string) : M unit := λ w,
  match fs w !! p with
  | Some Dir => (w, inr tt)
  | Some (File _) => (w, inl (FileExistsError p))
  | None =>
      match list_find (λ a, isfile_fs (fs w) a = true) (ancestors p) with
      | Some (_, a) => (w, inl (NotADirectoryError a))
      | None =>
          (emit (EvMakedirs p)
             (World (mkdir_all (ancestors p ++ [p]) (fs w)) (trace w)),
           inr tt)
      end
  end.

(** The prefix that [os.path.join(d, name)] puts before a relative [name]. *)
Definition dir_prefix (d : string) : string :=
  if bool_decide (d = "") || endswith_sep d then d else d +:+ "/".

Fixpoint strip_prefix (pre s : string) : option string :=
  match pre with
  | EmptyString => Some s
  | String c pre' =>
      match s with
      | String c' s' => if Ascii.eqb c c' then strip_prefix pre' s' else None
      | EmptyString => None
      end
  end.

(** The name under which the path [k] is a direct entry of directory [d]. *)
Definition entry_name (d k : string) : option string :=
  match strip_prefix (dir_prefix d) k with
  | Some n =>
      if bool_decide (n = "") || contains is_sep n then None else Some n
  | None => None
  end.

(** The names of the direct entries of [d]. *)
Definition entries (m : gmap string node) (d : string) : gset string :=
  set_omap (entry_name d) (dom m).

(** The order in which the platform lists a directory. *)
Class Platform := {
  listdir_order : gset string → list string;
  listdir_order_perm : ∀ S, listdir_order S ≡ₚ elements S
}.

(** [os.listdir(d)] of an existing directory. *)
Definition listdir {platform : Platform} (d : string) : M (list string) := λ w,
  (w, inr (listdir_order (entries (fs w) d))).

End os.

(** *** Pillow *)

(** The three library calls of the script, as functions of their arguments:
    decoding the content of a file ([Image.open] and the loading it
    triggers), [ImageOps.fit], and the encoder behind [Image.save]. *)
Class Pillow := {
  image : Type;
  Image_decode : bytes → exn + image;
  ImageOps_fit : image → Z * Z → exn + image;
  Image_encode : image → string → Z → exn + bytes
}.

Module Image.
Section with_pillow.
Context {pillow : Pillow}.

(** [Image.open(path)], as a context manager entered by [with]. *)
Definition open (path : string) : M image := λ w,
  let w' := emit (EvOpen path) w in
  match fs w !! path with
  | Some (File content) => (w', Image_decode content)
  | Some Dir => (w', inl (IsADirectoryError path))
  | None => (w', inl (FileNotFoundError path))
  end.

(** [img.save(path, format=..., quality=...)]: the file is written whole or
    not at all. *)
Definition save (img : image) (path format : string) (quality : Z) : M unit :=
  λ w,
  match Image_encode img format quality with
  | inl e => (w, inl e)
  | inr data =>
      match fs w !! path with
      | Some Dir => (w, inl (IsADirectoryError path))
      | _ =>
          (emit (EvSave path format quality data)
             (World (<[path := File data]> (fs w)) (trace w)),
           inr tt)
      end
  end.

End with_pillow.
End Image.

Module ImageOps.
Section with_pillow.
Context {pillow : Pillow}.

Definition fit (img : image) (size : Z * Z) : M image := λ w,
  (w, ImageOps_fit img size).

End with_pillow.
End ImageOps.

End runtime.

(** ** The script *)

Module process_source.
Import pystr runtime.

Definition sentinel : string := "source_images".

(** [_build_default_output_path(source_path)]; [parts.index] cannot raise
    under the membership test, the [None] arm stands for that dead path. *)
Definition _build_default_output_path (cwd source_path : string) : string :=
  let abs_path := posixpath.abspath cwd source_path in
  let parts := split abs_path in
  if mem sentinel parts then
    match index sentinel parts with
    | Some idx =>
        let project_root := sep_join (take idx parts) in
        let remainder := sep_join (drop (S idx) parts) in
        posixpath.join project_root
          ["processed_source_images"; remainder +:+ "_processed"]
    | None => ""
    end
  else
    let parent := posixpath.dirname abs_path in
    let base_name := posixpath.basename abs_path in
    posixpath.join parent [base_name +:+ "_processed"].

Section with_libs.
Context {platform : os.Platform} {pillow : Pillow}.

(** The body of the [with Image.open(...)] block. *)
Definition convert (img : image) (square_size : Z)
    (filename output_folder_path : string) : M unit :=
  processed_img ← ImageOps.fit img (square_size, square_size);
  let '(base_name, _) := posixpath.splitext filename in
  let out_path := posixpath.join output_folder_path [base_name +:+ ".webp"] in
  Image.save processed_img out_path "WEBP" 75;;
  print ("Processed: " +:+ filename +:+ " -> " +:+ out_path).

(** The body of the [try] block. *)
Definition open_and_convert (input_img_path : string) (square_size : Z)
    (filename output_folder_path : string) : M unit :=
  img ← Image.open input_img_path;
  convert img square_size filename output_folder_path.

(** One round of the loop over [os.listdir]. *)
Definition process_entry (source_folder_path : string) (square_size : Z)
    (output_folder_path filename : string) : M unit :=
  let input_img_path := posixpath.join source_folder_path [filename] in
  is_file ← os.isfile input_img_path;
  if negb is_file then mret tt
  else
    try_except
      (open_and_convert input_img_path square_size filename output_folder_path)
      (λ e, print ("Skipping " +:+ filename +:+ ": " +:+ str e)).

(** [process_source_images(source_folder_path, square_size,
    output_folder_path)]. *)
Definition process_source_images (source_folder_path : string)
    (square_size : Z) (output_folder_path : string) : M unit :=
  is_dir ← os.isdir source_folder_path;
  if negb is_dir then
    raise (ValueError ("Source folder not found: " +:+ source_folder_path))
  else
    os.makedirs output_folder_path;;
    filenames ← os.listdir source_folder_path;
    for_each filenames
      (process_entry source_folder_path square_size output_folder_path);;
    print ("Done. Output in: " +:+ output_folder_path).

(** The namespace that [argparse] returns; [output_folder] is [None] when
    the optional positional argument is omitted. *)
Record args := Args {
  input_folder : string;
  output_folder : option string;
  square_size : Z
}.

(** [x or y] for an optional string [x]: [None] and [""] are falsy. *)
Definition py_or (x : option string) (y : string) : string :=
  match x with
  | Some s => if bool_decide (s = "") then y else s
  | None => y
  end.

(** The [__main__] block after [parser.parse_args()]. *)
Definition main (cwd : string) (a : args) : M unit :=
  let output_folder :=
    py_or (output_folder a) (_build_default_output_path cwd (input_folder a)) in
  process_source_images (input_folder a) (square_size a) output_folder.

End with_libs.

End process_source.

(** ** The loop body on a host that can refuse *)

(** The definitions above take the host at its best: the console takes
    every line, the operating system opens every file, and [Image.save]
    either writes its file or leaves the path alone.  This module embeds the
    body of the loop (lines 50 to 66) without these assumptions. *)

Module fallible.
Import pystr runtime.

(** What the host may refuse, given the world so far: writing a line to
    the console ([UnicodeEncodeError] for a file name that the encoding of
    [sys.stdout] cannot express, [BrokenPipeError]), opening a file for
    reading, opening a file for writing ([PermissionError],
    [ENAMETOOLONG]).  [None] lets the call through. *)
Class Host := {
  print_error : world → string → option exn;
  read_error : world → string → option exn;
  write_error : world → string → option exn
}.

Section with_host.
Context {host : Host} {pillow : Pillow}.

(** [print(line)]: the line is written whole, or the call raises and
    nothing is written. *)
Definition print (line : string) : M unit := λ w,
  match print_error w line with
  | Some e => (w, inl e)
  | None => (emit (EvPrint line) w, inr tt)
  end.

(** [Image.open(path)], as a context manager entered by [with]. *)
Definition Image_open (path : string) : M image := λ w,
  let w' := emit (EvOpen path) w in
  match fs w !! path with
  | Some (File content) =>
      match read_error w path with
      | Some e => (w', inl e)
      | None => (w', Image_decode content)
      end
  | Some Dir => (w', inl (IsADirectoryError path))
  | None => (w', inl (FileNotFoundError path))
  end.

(** [img.save(path, format=..., quality=...)], for a format that Pillow
    has a handler for.  Pillow opens the target with mode [w+b], which
    creates it or empties it, and then runs the encoder; the WebP encoder
    writes nothing before it has the whole image.  When the encoder raises,
    Pillow removes the file if the call has created it, and leaves it, now
    empty, if it was there before.  Once the file is open, writing the
    encoded bytes is taken to succeed. *)
Definition Image_save (img : image) (path format : string) (quality : Z)
    : M unit := λ w,
  match fs w !! path with
  | Some Dir => (w, inl (IsADirectoryError path))
  | existing =>
      match write_error w path with
      | Some e => (w, inl e)
      | None =>
          match Image_encode img format quality with
          | inl e =>
              (match existing with
               | Some _ => World (<[path := File []]> (fs w)) (trace w)
               | None => w
               end,
               inl e)
          | inr data =>
              (emit (EvSave path format quality data)
                 (World (<[path := File data]> (fs w)) (trace w)),
               inr tt)
          end
      end
  end.

(** The body of the [with Image.open(...)] block. *)
Definition convert (img : image) (square_size : Z)
    (filename output_folder_path : string) : M unit :=
  processed_img ← ImageOps.fit img (square_size, square_size);
  let '(base_name, _) := posixpath.splitext filename in
  let out_path := posixpath.join output_folder_path [base_name +:+ ".webp"] in
  Image_save processed_img out_path "WEBP" 75;;
  print ("Processed: " +:+ filename +:+ " -> " +:+ out_path).

(** The body of the [try] block. *)
Definition open_and_convert (input_img_path : string) (square_size : Z)
    (filename output_folder_path : string) : M unit :=
  img ← Image_open input_img_path;
  convert img square_size filename output_folder_path.

(** One round of the loop over [os.listdir]. *)
Definition process_entry (source_folder_path : string) (square_size : Z)
    (output_folder_path filename : string) : M unit :=
  let input_img_path := posixpath.join source_folder_path [filename] in
  is_file ← os.isfile input_img_path;
  if negb is_file then mret tt
  else
    try_except
      (open_and_convert input_img_path square_size filename output_folder_path)
      (λ e, print ("Skipping " +:+ filename +:+ ": " +:+ str e)).

End with_host.

End fallible.

(** ** Notions used to state the properties *)

Module notions.
Import pystr runtime process_source.

(** A proper path component: not empty, no separator inside. *)
Definition component (x : string) : Prop :=
  x ≠ "" ∧ contains is_sep x = false.

(** The path that a file name is written to. *)
Definition out_path_of (output_folder_path filename : string) : string :=
  posixpath.join output_folder_path
    [(posixpath.splitext filename).1 +:+ ".webp"].

(** What the loop over [names] may do to the outside: open a listed entry
    of the source folder, save the thumbnail of a listed entry as WebP at
    quality 75, print. *)
Definition loop_event (src out : string) (names : list string) (e : event)
    : Prop :=
  match e with
  | EvOpen p => ∃ name, name ∈ names ∧ p = posixpath.join src [name]
  | EvSave p format quality _ =>
      format = "WEBP" ∧ quality = 75
      ∧ ∃ name, name ∈ names ∧ p = out_path_of out name
  | EvPrint _ => True
  | EvMakedirs _ => False
  end.

(** What a run may do to the outside: create the output folder, open a
    direct entry of the source folder, save a thumbnail as WebP at quality
    75 under the name derived from an entry, print. *)
Definition run_event (src out : string) (e : event) : Prop :=
  match e with
  | EvMakedirs p => p = out
  | EvOpen p =>
      ∃ name, p = posixpath.join src [name]
              ∧ name ≠ "" ∧ contains is_sep name = false
  | EvSave p format quality _ =>
      format = "WEBP" ∧ quality = 75
      ∧ ∃ name, p = posixpath.join out
                      [(posixpath.splitext name).1 +:+ ".webp"]
  | EvPrint _ => True
  end.

(** What an event does to the file system. *)
Definition apply_event (m : gmap string node) (e : event) : gmap string node :=
  match e with
  | EvSave p _ _ data => <[p := File data]> m
  | _ => m
  end.

Definition apply_events (evs : list event) (m : gmap string node)
    : gmap string node :=
  fold_left apply_event evs m.

(** The data of the last save to [k] among [evs]. *)
Fixpoint last_save (k : string) (evs : list event) : option bytes :=
  match evs with
  | [] => None
  | e :: evs' =>
      match last_save k evs' with
      | Some data => Some data
      | None =>
          match e with
          | EvSave p _ _ data => if decide (p = k) then Some data else None
          | _ => None
          end
      end
  end.

(** The source folder has the same direct entries, with the same contents,
    in both file systems. *)
Definition same_input (src : string) (m1 m2 : gmap string node) : Prop :=
  ∀ k, is_Some (os.entry_name src k) → m1 !! k = m2 !! k.

(** [s.endswith(suffix)]. *)
Fixpoint endswith (suffix s : string) : bool :=
  if decide (s = suffix) then true
  else match s with
       | EmptyString => false
       | String _ s' => endswith suffix s'
       end.

Section with_pillow.
Context {pillow : Pillow}.

(** The events of one round of the loop, from the file system it finds. *)
Definition entry_events (src : string) (sz : Z) (out name : string)
    (m : gmap string node) : list event :=
  let skip (e : exn) := EvPrint ("Skipping " +:+ name +:+ ": " +:+ str e) in
  match m !! posixpath.join src [name] with
  | Some (File content) =>
      EvOpen (posixpath.join src [name]) ::
      match Image_decode content with
      | inl e => [skip e]
      | inr img =>
          match ImageOps_fit img (sz, sz) with
          | inl e => [skip e]
          | inr img' =>
              match Image_encode img' "WEBP" 75 with
              | inl e => [skip e]
              | inr data =>
                  if os.isdir_fs m (out_path_of out name)
                  then [skip (IsADirectoryError (out_path_of out name))]
                  else [EvSave (out_path_of out name) "WEBP" 75 data;
                        EvPrint ("Processed: " +:+ name +:+ " -> "
                                 +:+ out_path_of out name)]
              end
          end
      end
  | _ => []
  end.

(** The events of the loop. *)
Fixpoint loop_events (src : string) (sz : Z) (out : string)
    (names : list string) (m : gmap string node) : list event :=
  match names with
  | [] => []
  | name :: names' =>
      let evs := entry_events src sz out name m in
      evs ++ loop_events src sz out names' (apply_events evs m)
  end.

End with_pillow.

End notions.

(** ** A small instance, to run the definitions *)

Module sample.
Import runtime.

Definition byte_of_Z (z : Z) : Byte.byte :=
  default Byte.x00 (Byte.of_N (Z.to_N (z mod 256))).

(** A Pillow that keeps only the size of an image: a file of two bytes
    decodes to an image of that width and height. *)
Definition decode (b : bytes) : exn + (Z * Z) :=
  match b with
  | [w; h] => inr (Z.of_N (Byte.to_N w), Z.of_N (Byte.to_N h))
  | _ => inl (Exn "UnidentifiedImageError" "cannot identify image file")
  end.

Definition fit (img size : Z * Z) : exn + (Z * Z) :=
  if (0 <? size.1) && (0 <? size.2) then inr size
  else inl (ValueError "height and width must be > 0").

Definition encode (img : Z * Z) (format : string) (quality : Z) : exn + bytes :=
  if bool_decide (format = "WEBP")
  then inr [byte_of_Z img.1; byte_of_Z img.2; byte_of_Z quality]
  else inl (Exn "KeyError" format).

Definition pillow : Pillow :=
  {| image := Z * Z; Image_decode := decode; ImageOps_fit := fit;
     Image_encode := encode |}.

(** A platform that lists a directory in the order of the set. *)
Definition platform : os.Platform :=
  {| os.listdir_order := elements;
     os.listdir_order_perm := λ S, reflexivity (elements S) |}.

Definition files : gmap string node :=
  list_to_map
    [("/in", Dir);
     ("/in/a.png", File [Byte.x04; Byte.x02]);
     ("/in/a.jpg", File [Byte.x03; Byte.x03]);
     ("/in/notes.txt", File []);
     ("/in/sub", Dir);
     ("/in/sub/deep.png", File [Byte.x01; Byte.x01])].

Definition w0 : world := World files [].



(** A console with a strict UTF-8 encoding: it raises on a line that holds
    the byte 255, which no UTF-8 text contains (Python keeps such a byte of
    a file name as a lone surrogate).  Every file can be opened. *)
Definition strict_console : fallible.Host :=
  {| fallible.print_error := λ _ line,
       if pystr.contains (λ c, Ascii.eqb c "255"%char) line
       then Some (Exn "UnicodeEncodeError"
                    "'utf-8' codec can't encode character: surrogates not allowed")
       else None;
     fallible.read_error := λ _ _, None;
     fallible.write_error := λ _ _, None |}.

(** The Pillow above, with the size limit of the WebP encoder. *)
Definition limited_encode (img : Z * Z) (format : string) (quality : Z)
    : exn + bytes :=
  if (16383 <? img.1) || (16383 <? img.2)
  then inl (Exn "OSError" "cannot write file as WebP (encoder returned None)")
  else encode img format quality.

Definition limited_pillow : Pillow :=
  {| image := Z * Z; Image_decode := decode; ImageOps_fit := fit;
     Image_encode := limited_encode |}.

(** A file name with the byte 255. *)
Definition odd_name : string := String "255"%char ".png".

(** A source folder with a file of that name that is no image, and an
    output folder that holds a thumbnail from an earlier run. *)
Definition files_trouble : gmap string node :=
  list_to_map
    [("/in", Dir);
     ("/in/" +:+ odd_name, File []);
     ("/in/a.png", File [Byte.x04; Byte.x02]);
     ("/out", Dir);
     ("/out/a.webp", File [Byte.x6b; Byte.x65; Byte.x65; Byte.x70])].

Definition w_trouble : world := World files_trouble [].

End sample.

Import pystr runtime process_source notions.

Example split_ex : split "/a//b/" = [""; "a"; ""; "b"; ""].
Proof. reflexivity. Qed.

Example normpath_ex1 : posixpath.normpath "/a/./b/../c//d/" = "/a/c/d".
Proof. reflexivity. Qed.

Example normpath_ex2 : posixpath.normpath "//a/../.." = "//".
Proof. reflexivity. Qed.

Example normpath_ex3 : posixpath.normpath "../a/../../b" = "../../b".
Proof. reflexivity. Qed.

Example normpath_ex4 : posixpath.normpath "///a" = "/a".
Proof. reflexivity. Qed.

Example splitext_ex :
  posixpath.splitext "a.tar.gz" = ("a.tar", ".gz")
  ∧ posixpath.splitext ".bashrc" = (".bashrc", "")
  ∧ posixpath.splitext "..x.y" = ("..x", ".y")
  ∧ posixpath.splitext "d.e/f" = ("d.e/f", "")
  ∧ posixpath.splitext "x." = ("x", ".").
Proof. repeat split; reflexivity. Qed.

Example dirname_ex :
  posixpath.dirname "/x/y" = "/x" ∧ posixpath.dirname "/x" = "/"
  ∧ posixpath.dirname "x" = "" ∧ posixpath.dirname "//x" = "//"
  ∧ posixpath.dirname "/a//b" = "/a".
Proof. repeat split; reflexivity. Qed.

Example build_ex1 :
  _build_default_output_path "/home/u" "/a/b/source_images/c/d"
  = "/a/b/processed_source_images/c/d_processed".
Proof. reflexivity. Qed.

Example build_ex2 :
  _build_default_output_path "/home/u" "/x/y/myfolder" = "/x/y/myfolder_processed".
Proof. reflexivity. Qed.

Example build_ex3 :
  _build_default_output_path "/home/u" "/source_images/c"
  = "processed_source_images/c_processed".
Proof. reflexivity. Qed.

Example run_ex :
  let run := process_source_images (platform := sample.platform)
               (pillow := sample.pillow) "/in" 35 "/out/t" sample.w0 in
  run.2 = inr tt
  ∧ trace run.1 =
      [EvMakedirs "/out/t";
       EvOpen "/in/a.jpg";
       EvSave "/out/t/a.webp" "WEBP" 75 [Byte.x23; Byte.x23; Byte.x4b];
       EvPrint "Processed: a.jpg -> /out/t/a.webp";
       EvOpen "/in/a.png";
       EvSave "/out/t/a.webp" "WEBP" 75 [Byte.x23; Byte.x23; Byte.x4b];
       EvPrint "Processed: a.png -> /out/t/a.webp";
       EvOpen "/in/notes.txt";
       EvPrint "Skipping notes.txt: cannot identify image file";
       EvPrint "Done. Output in: /out/t"]
  ∧ os.isdir_fs (fs run.1) "/out" = true
  ∧ os.isdir_fs (fs run.1) "/out/t" = true.
Proof. vm_compute. done. Qed.

Example main_ex :
  (main (platform := sample.platform) (pillow := sample.pillow) "/home/u"
     (Args "/nope" None 35) sample.w0).2
  = inl (ValueError "Source folder not found: /nope").
Proof. reflexivity. Qed.

(** ** Strings, splitting and joining *)

Section str_lemmas.

Lemma app_nil_l (s : string) : "" +:+ s = s.
Proof. done. Qed.

Lemma app_cons (c : ascii) (a b : string) : String c a +:+ b = String c (a +:+ b).
Proof. done. Qed.

Lemma app_empty_r (s : string) : s +:+ "" = s.
Proof. induction s as [|c s IH]; [done | by rewrite app_cons, IH]. Qed.

Lemma app_assoc' (a b c : string) : (a +:+ b) +:+ c = a +:+ b +:+ c.
Proof. induction a as [|x a IH]; [done | by rewrite !app_cons, IH]. Qed.

Lemma contains_app p (a b : string) :
  contains p (a +:+ b) = contains p a || contains p b.
Proof.
  induction a as [|x a IH]; [done|].
  rewrite app_cons. simpl. by rewrite IH, orb_assoc.
Qed.

Lemma split_nonempty (s : string) : split s ≠ [].
Proof.
  induction s as [|c s IH]; simpl; [done|].
  destruct (is_sep c); [done|]. by destruct (split s).
Qed.

Lemma split_no_sep (s x : string) : x ∈ split s → contains is_sep x = false.
Proof.
  revert x. induction s as [|c s IH]; simpl; intros x Hx.
  - apply list_elem_of_singleton in Hx as ->. done.
  - destruct (is_sep c) eqn:Hc.
    + apply elem_of_cons in Hx as [->|Hx]; [done | by apply IH].
    + destruct (split s) as [|h t] eqn:Hs.
      * apply list_elem_of_singleton in Hx as ->. simpl. by rewrite Hc.
      * apply elem_of_cons in Hx as [->|Hx].
        -- simpl. rewrite Hc. apply IH. left.
        -- apply IH. by right.
Qed.

Lemma split_sep_free (s : string) : contains is_sep s = false → split s = [s].
Proof.
  induction s as [|c s IH]; simpl; [done|].
  intros [Hc Hs]%orb_false_iff. rewrite Hc, (IH Hs). done.
Qed.

Lemma split_app_sep (a b : string) :
  split (a +:+ String "/" b) = split a ++ split b.
Proof.
  induction a as [|c a IH]; [done|].
  rewrite app_cons. simpl. rewrite IH. destruct (is_sep c); [done|].
  destruct (split a) as [|h t] eqn:Ha; [by apply split_nonempty in Ha|done].
Qed.

Lemma sep_join_cons (x y : string) (t : list string) :
  sep_join (x :: y :: t) = x +:+ String "/" (sep_join (y :: t)).
Proof. done. Qed.

Lemma split_sep_join (l : list string) :
  l ≠ [] → Forall (λ x, contains is_sep x = false) l → split (sep_join l) = l.
Proof.
  induction l as [|x [|y t] IH]; intros Hne Hall; [done| |].
  - simpl. apply split_sep_free. by inversion Hall.
  - rewrite sep_join_cons, split_app_sep.
    inversion Hall as [|?? Hx Ht]; subst.
    rewrite (split_sep_free _ Hx), IH; done.
Qed.

Lemma sep_join_split (s : string) : sep_join (split s) = s.
Proof.
  induction s as [|c s IH]; [done|]. simpl split.
  pose proof (split_nonempty s) as Hne.
  destruct (is_sep c) eqn:Hc.
  - apply Ascii.eqb_eq in Hc as ->.
    destruct (split s) as [|h t]; [done|].
    rewrite sep_join_cons, IH. done.
  - destruct (split s) as [|h [|h' t]]; [done| |].
    + simpl in *. by rewrite IH.
    + rewrite sep_join_cons, app_cons. rewrite sep_join_cons in IH.
      by rewrite IH.
Qed.

Lemma sep_join_app (l1 l2 : list string) :
  l1 ≠ [] → l2 ≠ [] →
  sep_join (l1 ++ l2) = sep_join l1 +:+ String "/" (sep_join l2).
Proof.
  induction l1 as [|x [|y t] IH]; intros H1 H2; [done| |].
  - destruct l2; done.
  - rewrite <- !app_comm_cons, sep_join_cons.
    rewrite app_comm_cons, IH by done.
    rewrite sep_join_cons, app_assoc'. done.
Qed.

End str_lemmas.

(** ** The shape of a normalised path *)

Section normpath_shape.

Lemma normpath_comps_components n acc comps :
  Forall component acc →
  Forall (λ x, contains is_sep x = false) comps →
  Forall component (posixpath.normpath_comps n acc comps).
Proof.
  revert acc. induction comps as [|c rest IH]; intros acc Hacc Hcomps; simpl.
  - by apply Forall_rev.
  - inversion Hcomps as [|?? Hc Hrest]; subst.
    destruct (bool_decide (c = "")) eqn:Hempty; simpl; [by apply IH|].
    apply bool_decide_eq_false in Hempty.
    destruct (bool_decide (c = ".")); simpl; [by apply IH|].
    match goal with |- context [if ?b then _ else _] => destruct b end.
    + apply IH; [|done]. by constructor.
    + apply IH; [|done]. destruct acc; [done|]. by inversion Hacc.
Qed.

Lemma split_seps_app (n : nat) (s : string) :
  split (posixpath.seps n +:+ s) = replicate n "" ++ split s.
Proof.
  induction n as [|n IH]; [done|].
  simpl posixpath.seps. rewrite app_cons. simpl. by rewrite IH.
Qed.

Lemma split_seps (n : nat) : split (posixpath.seps n) = replicate (S n) "".
Proof.
  rewrite <- (app_empty_r (posixpath.seps n)), split_seps_app. simpl.
  induction n as [|n IH]; [done|]. simpl. by rewrite IH.
Qed.

(** The parts of a normalised path: some empty strings (for the leading
    slashes), then proper components. *)
Lemma normpath_parts (p : string) :
  ∃ k comps, split (posixpath.normpath p) = replicate k "" ++ comps
             ∧ Forall component comps.
Proof.
  assert (Hdot : ∃ k comps, split "." = replicate k "" ++ comps
                            ∧ Forall component comps).
  { exists O, ["."]. split; [done|]. by repeat constructor. }
  unfold posixpath.normpath.
  destruct (bool_decide (p = "")); [done|].
  set (n := posixpath.initial_slashes p).
  pose proof (normpath_comps_components n [] (split p) (Forall_nil_2 _)) as Hc.
  assert (Hs : Forall (λ x, contains is_sep x = false) (split p)).
  { apply Forall_forall. intros x. apply split_no_sep. }
  specialize (Hc Hs).
  destruct (bool_decide _); [done|].
  destruct (posixpath.normpath_comps n [] (split p)) as [|c cs] eqn:Hcs.
  - exists (S n), []. rewrite app_empty_r, split_seps, app_nil_r. done.
  - exists n, (c :: cs). split; [|done].
    rewrite split_seps_app, split_sep_join; [done..|].
    eapply Forall_impl; [exact Hc|]. by intros x [_ ?].
Qed.

(** Whatever follows a non-empty part of a normalised path is made of
    proper components. *)
Lemma normpath_parts_after (p x : string) (pre post : list string) :
  split (posixpath.normpath p) = pre ++ x :: post → x ≠ "" →
  Forall component post.
Proof.
  intros Hsplit Hx.
  destruct (normpath_parts p) as (k & comps & Hparts & Hcomps).
  rewrite Hparts in Hsplit. clear Hparts.
  revert pre Hsplit. induction k as [|k IH]; intros pre Hsplit; simpl in *.
  - subst comps. apply Forall_app in Hcomps as [_ Hcomps].
    by inversion Hcomps.
  - destruct pre as [|y pre]; simpl in *.
    + congruence.
    + inversion Hsplit; subst. by eapply IH.
Qed.

End normpath_shape.

(** ** The default output path *)

Section default_output_path.

Lemma endswith_sep_app (a b : string) :
  b ≠ "" → endswith_sep (a +:+ b) = endswith_sep b.
Proof.
  intros Hb. induction a as [|c a IH]; [done|].
  rewrite app_cons. simpl.
  destruct (a +:+ b) eqn:Hab; [|done].
  destruct a; [|done]. by rewrite app_nil_l in Hab.
Qed.

(** [parts.index] finds whatever the membership test has found. *)
Lemma index_of_member (x : string) (l : list string) :
  mem x l = true → is_Some (index x l).
Proof.
  unfold mem. intros Hin%bool_decide_eq_true.
  induction l as [|y l IH]; simpl.
  - by apply elem_of_nil in Hin.
  - destruct (decide (y = x)) as [Heq|Hne]; [by eauto|].
    apply elem_of_cons in Hin as [?|Hin]; [congruence|].
    destruct (IH Hin) as [i ->]. by eauto.
Qed.

Lemma index_app_first (x : string) (pre post : list string) :
  x ∉ pre → index x (pre ++ x :: post) = Some (length pre).
Proof.
  induction pre as [|y pre IH]; intros Hnin; simpl.
  - by rewrite decide_True.
  - apply not_elem_of_cons in Hnin as [Hne Hnin].
    rewrite decide_False by done. by rewrite IH.
Qed.

Lemma startswith_sep_join_components (post : list string) (suffix : string) :
  Forall component post → startswith_sep suffix = false →
  startswith_sep (sep_join post +:+ suffix) = false.
Proof.
  intros Hpost Hsuf. destruct post as [|y post]; [done|].
  inversion Hpost as [|?? [Hy Hsep] _]; subst.
  destruct y as [|c y]; [done|]. simpl in Hsep.
  apply orb_false_iff in Hsep as [Hc _].
  destruct post; simpl sep_join; rewrite ?app_cons; simpl; done.
Qed.

(** The sentinel branch, whenever something other than a bare slash
    precedes the sentinel: the path is cut at the first ["source_images"]
    part and put together again as
    [<project_root>/processed_source_images/<remainder>_processed]. *)
Lemma build_default_output_path_sentinel cwd source_path pre post :
  split (posixpath.abspath cwd source_path) = pre ++ sentinel :: post →
  sentinel ∉ pre →
  sep_join pre ≠ "" → endswith_sep (sep_join pre) = false →
  _build_default_output_path cwd source_path
  = sep_join pre +:+ "/processed_source_images/" +:+ sep_join post
      +:+ "_processed".
Proof.
  intros Hsplit Hfirst Hroot Hslash.
  pose proof (normpath_parts_after _ _ _ _ Hsplit) as Hpost.
  unfold _build_default_output_path. rewrite Hsplit.
  unfold mem. rewrite bool_decide_eq_true_2 by set_solver.
  rewrite index_app_first by done.
  rewrite take_app_length.
  replace (drop (S (length pre)) (pre ++ sentinel :: post)) with post.
  2:{ rewrite cons_middle, app_assoc. symmetry. apply drop_app_length'.
      rewrite length_app. simpl. lia. }
  unfold posixpath.join. simpl fold_left.
  unfold posixpath.join_step at 2. simpl startswith_sep.
  rewrite bool_decide_eq_false_2 by done. rewrite Hslash. simpl.
  unfold posixpath.join_step.
  rewrite startswith_sep_join_components; [|by apply Hpost|done].
  rewrite bool_decide_eq_false_2.
  2:{ by destruct (sep_join pre). }
  rewrite endswith_sep_app by done. simpl.
  rewrite !app_assoc'. reflexivity.
Qed.

(** *** Cutting a path after its last separator *)

Lemma cut_after_last_sep_free p (s : string) :
  contains p s = false → cut_after_last p s = ("", s).
Proof.
  destruct s as [|c s]; [done|]. simpl.
  intros [Hc Hs]%orb_false_iff. by rewrite Hs, Hc.
Qed.

Lemma endswith_sep_contains (s : string) :
  endswith_sep s = true → contains is_sep s = true.
Proof.
  induction s as [|c s IH]; [done|]. simpl.
  destruct s as [|c' s]; [by intros ->|].
  intros Hs. rewrite (IH Hs). by rewrite orb_true_r.
Qed.

Lemma cut_after_last_app (h t : string) :
  endswith_sep h = true → contains is_sep t = false →
  cut_after_last is_sep (h +:+ t) = (h, t).
Proof.
  intros Hh Ht. induction h as [|c h IH]; [done|].
  rewrite app_cons. simpl. rewrite contains_app, Ht, orb_false_r.
  destruct h as [|c' h].
  - rewrite app_nil_l. simpl in *. by rewrite Hh.
  - rewrite endswith_sep_contains by done. rewrite IH; done.
Qed.

Lemma cut_after_last_spec (p : string) :
  ∃ h t, cut_after_last is_sep p = (h, t) ∧ p = h +:+ t
         ∧ contains is_sep t = false
         ∧ (h = "" ∨ endswith_sep h = true).
Proof.
  induction p as [|c p (h & t & Hcut & Hp & Ht & Hh)].
  - exists "", "". by auto.
  - simpl. rewrite Hcut. destruct (contains is_sep p) eqn:Hsep.
    + exists (String c h), t. rewrite app_cons, <- Hp.
      repeat split; [done|]. right.
      destruct Hh as [->|Hh].
      * rewrite app_nil_l in Hp. congruence.
      * simpl. by destruct h.
    + destruct (is_sep c) eqn:Hc.
      * exists (String c ""), p. rewrite app_cons, app_nil_l.
        repeat split; [done|]. right. done.
      * exists "", (String c p). rewrite app_nil_l.
        repeat split; [|by left]. simpl. by rewrite Hc, Hsep.
Qed.

Lemma all_sep_endswith (s : string) :
  s ≠ "" → all_sep s = true → endswith_sep s = true.
Proof.
  induction s as [|c s IH]; [done|]. intros _. simpl.
  intros [Hc Hs]%andb_true_iff. destruct s; [done|]. by apply IH.
Qed.

Lemma rstrip_sep_not_endswith (s : string) : endswith_sep (rstrip_sep s) = false.
Proof.
  induction s as [|c s IH]; [done|].
  simpl rstrip_sep. destruct (is_sep c && all_sep s) eqn:Hall; [done|].
  simpl. destruct (rstrip_sep s) eqn:Hr; [|done].
  destruct (is_sep c) eqn:Hc; [|done]. simpl in Hall.
  clear IH. exfalso. revert Hr Hall. clear.
  induction s as [|c s IH]; [done|]. simpl.
  destruct (is_sep c && all_sep s) eqn:H; [|done]. done.
Qed.

Lemma all_sep_app (a b : string) : all_sep (a +:+ b) = all_sep a && all_sep b.
Proof.
  induction a as [|c a IH]; [done|].
  rewrite app_cons. simpl. by rewrite IH, andb_assoc.
Qed.

Lemma rstrip_sep_app_sep (s : string) :
  endswith_sep s = false → s ≠ "" → rstrip_sep (s +:+ "/") = s.
Proof.
  induction s as [|c s IH]; [done|]. intros Hend _.
  assert (Hall : all_sep (String c s) = false).
  { destruct (all_sep (String c s)) eqn:Hall; [|done].
    apply all_sep_endswith in Hall; [congruence|done]. }
  rewrite app_cons. simpl rstrip_sep.
  rewrite all_sep_app. simpl in Hall. simpl all_sep at 2.
  rewrite andb_true_r, Hall.
  destruct s as [|c' s]; [done|].
  rewrite IH; done.
Qed.

Lemma dirname_cases (p : string) :
  posixpath.dirname p = ""
  ∨ all_sep (posixpath.dirname p) = true
  ∨ endswith_sep (posixpath.dirname p) = false
    ∧ all_sep (posixpath.dirname p) = false.
Proof.
  unfold posixpath.dirname.
  destruct (cut_after_last is_sep p) as [h t]. simpl.
  destruct (bool_decide (h = "")) eqn:Hh; simpl.
  - apply bool_decide_eq_true in Hh. by left.
  - destruct (all_sep h) eqn:Hall; simpl; [by right; left|].
    destruct (decide (rstrip_sep h = "")) as [Hr|Hr]; [by left|].
    right; right. split; [apply rstrip_sep_not_endswith|].
    destruct (all_sep (rstrip_sep h)) eqn:Hall'; [|done].
    pose proof (all_sep_endswith _ Hr Hall') as Hend.
    by rewrite rstrip_sep_not_endswith in Hend.
Qed.

(** The other branch, for whatever [abspath] returns: the result has the
    parent of the source as its parent, and the name of the source with
    [_processed] appended as its name. *)
Lemma build_default_output_path_sibling cwd source_path :
  sentinel ∉ split (posixpath.abspath cwd source_path) →
  let abs_path := posixpath.abspath cwd source_path in
  let result := _build_default_output_path cwd source_path in
  posixpath.dirname result = posixpath.dirname abs_path
  ∧ posixpath.basename result = posixpath.basename abs_path +:+ "_processed".
Proof.
  intros Hnin abs_path result. subst result.
  unfold _build_default_output_path, mem. fold abs_path.
  rewrite bool_decide_eq_false_2 by done.
  destruct (cut_after_last_spec abs_path) as (h & t & Hcut & _ & Ht & _).
  assert (Hbase : posixpath.basename abs_path = t).
  { unfold posixpath.basename. by rewrite Hcut. }
  rewrite Hbase.
  assert (Ht' : contains is_sep (t +:+ "_processed") = false).
  { by rewrite contains_app, Ht. }
  assert (Hstart : startswith_sep (t +:+ "_processed") = false).
  { destruct t as [|c t]; [done|]. rewrite app_cons. simpl in *.
    by apply orb_false_iff in Ht as [-> _]. }
  set (d := posixpath.dirname abs_path).
  unfold posixpath.join, posixpath.join_step. simpl fold_left.
  rewrite Hstart.
  destruct (dirname_cases abs_path) as [Hd|[Hd|[Hend Hall]]]; fold d in Hd || fold d in Hend, Hall.
  - rewrite Hd. simpl. rewrite app_nil_l.
    unfold posixpath.dirname, posixpath.basename.
    rewrite cut_after_last_sep_free by done. done.
  - destruct (decide (d = "")) as [Hd0|Hd0].
    { rewrite Hd0. simpl. rewrite app_nil_l.
      unfold posixpath.dirname, posixpath.basename.
      rewrite cut_after_last_sep_free by done. done. }
    rewrite (all_sep_endswith _ Hd0 Hd), orb_true_r.
    unfold posixpath.dirname at 1, posixpath.basename.
    rewrite cut_after_last_app; [|by apply all_sep_endswith|done]. simpl.
    by rewrite Hd, andb_false_r.
  - assert (Hd0 : d ≠ "") by (by intros Hd0; rewrite Hd0 in Hall).
    rewrite bool_decide_eq_false_2, Hend by done. simpl.
    rewrite <- app_assoc'.
    unfold posixpath.dirname at 1, posixpath.basename.
    rewrite cut_after_last_app; [|by rewrite endswith_sep_app|done]. simpl.
    rewrite bool_decide_eq_false_2.
    2:{ by destruct d. }
    rewrite all_sep_app, Hall. simpl.
    by rewrite rstrip_sep_app_sep.
Qed.

Lemma sep_free_not_endswith (x : string) :
  contains is_sep x = false → endswith_sep x = false.
Proof.
  intros Hx. destruct (endswith_sep x) eqn:Hend; [|done].
  apply endswith_sep_contains in Hend. congruence.
Qed.

Lemma sep_join_snoc_component (f : list string) (x : string) :
  component x →
  endswith_sep (sep_join (f ++ [x])) = false ∧ sep_join (f ++ [x]) ≠ "".
Proof.
  intros [Hne Hsep]. destruct f as [|y f].
  - simpl. split; [by apply sep_free_not_endswith | done].
  - rewrite sep_join_app by done. simpl sep_join at 2. split.
    + rewrite endswith_sep_app by done.
      destruct x as [|c x]; [done|]. by apply sep_free_not_endswith in Hsep.
    + destruct (sep_join (y :: f)); done.
Qed.

Lemma all_sep_join_replicate (k : nat) : all_sep (sep_join (replicate k "")) = true.
Proof.
  induction k as [|[|k] IH]; [done..|].
  change (replicate (S (S k)) "") with ("" :: "" :: replicate k "").
  rewrite sep_join_cons, app_nil_l. simpl all_sep. exact IH.
Qed.

Lemma app_nonempty_r (a : string) (c : ascii) (b : string) :
  a +:+ String c b ≠ "".
Proof. by destruct a. Qed.

Lemma cut_after_last_all_sep (p : string) :
  all_sep p = true → cut_after_last is_sep p = (p, "").
Proof.
  intros Hall. destruct (decide (p = "")) as [->|Hne]; [done|].
  rewrite <- (app_empty_r p) at 1.
  apply cut_after_last_app; [by apply all_sep_endswith | done].
Qed.

(** On the normalised path that [abspath] returns, the other branch
    amounts to appending [_processed]. *)
Lemma build_default_output_path_suffix cwd source_path :
  sentinel ∉ split (posixpath.abspath cwd source_path) →
  _build_default_output_path cwd source_path
  = posixpath.abspath cwd source_path +:+ "_processed".
Proof.
  intros Hnin. unfold _build_default_output_path, mem.
  rewrite bool_decide_eq_false_2 by done. clear Hnin.
  unfold posixpath.abspath.
  set (p := posixpath.normpath _).
  destruct (normpath_parts
    (if startswith_sep source_path then source_path
     else posixpath.join cwd [source_path])) as (k & comps & Hparts & Hcomps).
  fold p in Hparts. clearbody p. pose proof (sep_join_split p) as Hp.
  rewrite Hparts in Hp. clear Hparts.
  unfold posixpath.dirname, posixpath.basename, posixpath.join.
  simpl fold_left. unfold posixpath.join_step.
  destruct comps as [|c0 comps0] using rev_ind.
  - (* only slashes *)
    rewrite app_nil_r in Hp.
    assert (Hall : all_sep p = true) by (rewrite <- Hp; apply all_sep_join_replicate).
    rewrite cut_after_last_all_sep by done. simpl.
    rewrite Hall, andb_false_r.
    destruct (decide (p = "")) as [->|Hne]; [done|].
    rewrite all_sep_endswith, orb_true_r by done. done.
  - clear IHcomps0. apply Forall_app in Hcomps as [Hfront Hc].
    inversion Hc as [|?? [Hc0 Hsep] _]; subst x l.
    assert (Hstart : startswith_sep (c0 +:+ "_processed") = false).
    { destruct c0 as [|a c0]; [done|]. rewrite app_cons. simpl in *.
      by apply orb_false_iff in Hsep as [-> _]. }
    rewrite app_assoc in Hp.
    destruct (decide (replicate k "" ++ comps0 = [])) as [Hnil|Hfr].
    + rewrite Hnil in Hp. simpl in Hp. subst p.
      rewrite cut_after_last_sep_free by done. simpl. by rewrite Hstart.
    + rewrite sep_join_app in Hp by done. simpl sep_join at 2 in Hp.
      set (front := sep_join (replicate k "" ++ comps0)) in *.
      assert (Hcut : cut_after_last is_sep p = (front +:+ "/", c0)).
      { rewrite <- Hp.
        change (front +:+ String "/" c0) with (front +:+ "/" +:+ c0).
        rewrite <- app_assoc'.
        apply cut_after_last_app; [by rewrite endswith_sep_app | done]. }
      rewrite Hcut. simpl fst. simpl snd. rewrite Hstart.
      rewrite (bool_decide_eq_false_2 (front +:+ "/" = ""))
        by apply app_nonempty_r.
      cbn [negb andb].
      destruct (all_sep (front +:+ "/")) eqn:Hall; cbn [negb].
      * rewrite endswith_sep_app by done. simpl endswith_sep.
        rewrite orb_true_r, <- Hp.
        rewrite !app_assoc'. done.
      * assert (Hfront_ok : endswith_sep front = false ∧ front ≠ "").
        { destruct comps0 as [|x comps0 _] using rev_ind.
          - subst front. rewrite app_nil_r in Hall.
            rewrite all_sep_app, all_sep_join_replicate in Hall. done.
          - subst front. rewrite app_assoc.
            apply sep_join_snoc_component.
            apply Forall_app in Hfront as [_ Hx]. by inversion Hx. }
        destruct Hfront_ok as [Hend Hne].
        rewrite rstrip_sep_app_sep by done.
        rewrite bool_decide_eq_false_2, Hend by done. simpl.
        rewrite <- Hp. rewrite !app_assoc'. done.
Qed.

End default_output_path.

(** ** One round of the loop *)

Section batch.
Context {platform : os.Platform} {pillow : Pillow}.

(** What the [try] block does to a regular file, by cases on the three
    library calls and on the target of the write. *)
Lemma open_and_convert_file src sz out name w content :
  fs w !! posixpath.join src [name] = Some (File content) →
  open_and_convert (posixpath.join src [name]) sz name out w =
    let w1 := emit (EvOpen (posixpath.join src [name])) w in
    match Image_decode content with
    | inl e => (w1, inl e)
    | inr img =>
        match ImageOps_fit img (sz, sz) with
        | inl e => (w1, inl e)
        | inr img' =>
            match Image_encode img' "WEBP" 75 with
            | inl e => (w1, inl e)
            | inr data =>
                if os.isdir_fs (fs w) (out_path_of out name)
                then (w1, inl (IsADirectoryError (out_path_of out name)))
                else
                  (emit (EvPrint ("Processed: " +:+ name +:+ " -> "
                                  +:+ out_path_of out name))
                     (emit (EvSave (out_path_of out name) "WEBP" 75 data)
                        (World (<[out_path_of out name := File data]> (fs w))
                           (trace w1))),
                   inr tt)
            end
        end
    end.
Proof.
  intros Hfile.
  unfold open_and_convert, convert, Image.open, ImageOps.fit, Image.save,
    out_path_of, os.isdir_fs, mbind, M_bind, print.
  rewrite Hfile. simpl.
  destruct (Image_decode content) as [e|img]; [done|].
  destruct (ImageOps_fit img (sz, sz)) as [e|img']; [done|].
  destruct (posixpath.splitext name) as [base_name ext]. simpl.
  destruct (Image_encode img' "WEBP" 75) as [e|data]; [done|].
  destruct (fs w !! posixpath.join_step out _) as [[|?]|]; done.
Qed.

Lemma process_entry_not_file src sz out name w :
  os.isfile_fs (fs w) (posixpath.join src [name]) = false →
  process_entry src sz out name w = (w, inr tt).
Proof.
  intros Hnf. unfold process_entry, os.isfile, mbind, M_bind.
  by rewrite Hnf.
Qed.

Lemma process_entry_file src sz out name w :
  os.isfile_fs (fs w) (posixpath.join src [name]) = true →
  process_entry src sz out name w =
    match open_and_convert (posixpath.join src [name]) sz name out w with
    | (w1, inl e) =>
        (emit (EvPrint ("Skipping " +:+ name +:+ ": " +:+ str e)) w1, inr tt)
    | (w1, inr _) => (w1, inr tt)
    end.
Proof.
  intros Hf. unfold process_entry, os.isfile, mbind, M_bind, try_except, print.
  rewrite Hf. simpl.
  destruct (open_and_convert _ _ _ _ w) as [w1 [e|[]]]; done.
Qed.

Lemma isfile_fs_true m p :
  os.isfile_fs m p = true ↔ ∃ content, m !! p = Some (File content).
Proof.
  unfold os.isfile_fs. destruct (m !! p) as [[|c]|]; split;
    try done; try (intros [? ?]; done). eauto.
Qed.

(** No round of the loop raises. *)
Lemma process_entry_returns src sz out name w :
  (process_entry src sz out name w).2 = inr tt.
Proof.
  destruct (os.isfile_fs (fs w) (posixpath.join src [name])) eqn:Hf.
  - rewrite process_entry_file by done.
    destruct (open_and_convert _ _ _ _ w) as [w1 [e|[]]]; done.
  - by rewrite process_entry_not_file.
Qed.

Lemma for_each_cons {A} (x : A) (l : list A) (body : A → M unit) w :
  for_each (x :: l) body w =
    match body x w with
    | (w', inl e) => (w', inl e)
    | (w', inr _) => for_each l body w'
    end.
Proof. done. Qed.

Lemma for_each_process_entry_returns src sz out names w :
  (for_each names (process_entry src sz out) w).2 = inr tt.
Proof.
  revert w. induction names as [|name names IH]; intros w; [done|].
  rewrite for_each_cons.
  pose proof (process_entry_returns src sz out name w) as Hr.
  destruct (process_entry src sz out name w) as [w' [e|[]]]; [done|].
  apply IH.
Qed.

(** *** The events of a run *)

Lemma loop_event_mono src out names names' e :
  names ⊆ names' → loop_event src out names e → loop_event src out names' e.
Proof.
  intros Hsub. destruct e; simpl; [done| | |done].
  - intros (name & ? & ?). exists name. split; [by apply Hsub|done].
  - intros (? & ? & name & ? & ?). repeat split; [done..|].
    exists name. split; [by apply Hsub|done].
Qed.

Lemma process_entry_events src sz out name w :
  ∃ evs, trace (process_entry src sz out name w).1 = trace w ++ evs
         ∧ Forall (loop_event src out [name]) evs.
Proof.
  assert (Hin : name ∈ [name]) by left.
  destruct (os.isfile_fs (fs w) (posixpath.join src [name])) eqn:Hf.
  - rewrite process_entry_file by done.
    apply isfile_fs_true in Hf as [content Hc].
    rewrite (open_and_convert_file _ _ _ _ _ _ Hc). cbv zeta.
    assert (Hopen : loop_event src out [name] (EvOpen (posixpath.join src [name])))
      by (by exists name).
    destruct (Image_decode content) as [e|img].
    { eexists [_; _]. simpl. rewrite <- app_assoc. split; [done|].
      by repeat constructor. }
    destruct (ImageOps_fit img (sz, sz)) as [e|img'].
    { eexists [_; _]. simpl. rewrite <- app_assoc. split; [done|].
      by repeat constructor. }
    destruct (Image_encode img' "WEBP" 75) as [e|data].
    { eexists [_; _]. simpl. rewrite <- app_assoc. split; [done|].
      by repeat constructor. }
    destruct (os.isdir_fs (fs w) (out_path_of out name)).
    { eexists [_; _]. simpl. rewrite <- app_assoc. split; [done|].
      by repeat constructor. }
    eexists [_; _; _]. simpl. rewrite <- !app_assoc. split; [done|].
    repeat constructor; [done|]. by exists name.
  - rewrite process_entry_not_file by done.
    exists []. by rewrite app_nil_r.
Qed.

Lemma for_each_events src sz out names w :
  ∃ evs, trace (for_each names (process_entry src sz out) w).1 = trace w ++ evs
         ∧ Forall (loop_event src out names) evs.
Proof.
  revert w. induction names as [|name names IH]; intros w.
  - exists []. by rewrite app_nil_r.
  - rewrite for_each_cons.
    destruct (process_entry_events src sz out name w) as (evs1 & Ht1 & He1).
    pose proof (process_entry_returns src sz out name w) as Hr.
    destruct (process_entry src sz out name w) as [w1 [e|[]]]; [done|].
    simpl in Ht1. destruct (IH w1) as (evs2 & Ht2 & He2).
    exists (evs1 ++ evs2). rewrite Ht2, Ht1, <- app_assoc. split; [done|].
    apply Forall_app. split.
    + eapply Forall_impl; [exact He1|]. intros e.
      apply loop_event_mono. intros x ->%list_elem_of_singleton. left.
    + eapply Forall_impl; [exact He2|]. intros e.
      apply loop_event_mono. intros x ?. by right.
Qed.

(** *** Directory entries *)

Lemma strip_prefix_Some (pre k n : string) :
  os.strip_prefix pre k = Some n → k = pre +:+ n.
Proof.
  revert k. induction pre as [|c pre IH]; intros k; simpl.
  - by intros [= ->].
  - destruct k as [|c' k]; [done|].
    destruct (Ascii.eqb c c') eqn:Hc; [|done].
    apply Ascii.eqb_eq in Hc as ->. intros Hk%IH. by rewrite Hk.
Qed.

(** A direct entry has a plain name, and is reached by joining that name
    to the directory. *)
Lemma entry_name_spec (d k n : string) :
  os.entry_name d k = Some n →
  k = posixpath.join d [n] ∧ n ≠ "" ∧ contains is_sep n = false.
Proof.
  unfold os.entry_name.
  destruct (os.strip_prefix (os.dir_prefix d) k) as [n'|] eqn:Hs; [|done].
  destruct (bool_decide (n' = "")) eqn:Hne; [done|]. simpl.
  destruct (contains is_sep n') eqn:Hsep; [done|].
  intros [= <-]. apply bool_decide_eq_false in Hne.
  apply strip_prefix_Some in Hs. split; [|done].
  unfold posixpath.join, posixpath.join_step, os.dir_prefix in *. simpl.
  assert (startswith_sep n' = false) as ->.
  { destruct n' as [|c n']; [done|]. simpl in *.
    by apply orb_false_iff in Hsep as [-> _]. }
  destruct (bool_decide (d = "") || endswith_sep d); [done|].
  by rewrite app_assoc' in Hs.
Qed.

Lemma listdir_names (m : gmap string node) (d name : string) :
  name ∈ os.listdir_order (os.entries m d) →
  ∃ k, is_Some (m !! k) ∧ os.entry_name d k = Some name.
Proof.
  rewrite os.listdir_order_perm, elem_of_elements.
  unfold os.entries. rewrite elem_of_set_omap.
  intros (k & Hk & Hname). exists k. by rewrite <- elem_of_dom.
Qed.

(** *** The whole run *)

Lemma process_source_images_not_dir src sz out w :
  os.isdir_fs (fs w) src = false →
  process_source_images src sz out w
  = (w, inl (ValueError ("Source folder not found: " +:+ src))).
Proof.
  intros Hd. unfold process_source_images, os.isdir, mbind, M_bind.
  by rewrite Hd.
Qed.

Lemma process_source_images_dir src sz out w :
  os.isdir_fs (fs w) src = true →
  process_source_images src sz out w =
    match os.makedirs out w with
    | (w1, inl e) => (w1, inl e)
    | (w1, inr _) =>
        (emit (EvPrint ("Done. Output in: " +:+ out))
           (for_each (os.listdir_order (os.entries (fs w1) src))
              (process_entry src sz out) w1).1,
         inr tt)
    end.
Proof.
  intros Hd.
  unfold process_source_images, os.isdir, os.listdir, mbind, M_bind, print.
  rewrite Hd. simpl.
  destruct (os.makedirs out w) as [w1 [e|[]]]; [done|].
  pose proof (for_each_process_entry_returns src sz out
    (os.listdir_order (os.entries (fs w1) src)) w1) as Hr.
  destruct (for_each _ _ w1) as [w2 [e|[]]]; done.
Qed.

Lemma makedirs_trace out w :
  trace (os.makedirs out w).1 = trace w
  ∨ trace (os.makedirs out w).1 = trace w ++ [EvMakedirs out].
Proof.
  unfold os.makedirs.
  destruct (fs w !! out) as [[|?]|]; [by left..|].
  destruct (list_find _ _) as [[? ?]|]; [by left|by right].
Qed.

Lemma process_source_images_events src sz out w :
  ∃ evs, trace (process_source_images src sz out w).1 = trace w ++ evs
         ∧ Forall (run_event src out) evs.
Proof.
  destruct (os.isdir_fs (fs w) src) eqn:Hd.
  2:{ rewrite process_source_images_not_dir by done.
      exists []. by rewrite app_nil_r. }
  rewrite process_source_images_dir by done.
  assert (Hmk : ∃ evs0, trace (os.makedirs out w).1 = trace w ++ evs0
                        ∧ Forall (run_event src out) evs0).
  { destruct (makedirs_trace out w) as [Ht|Ht]; rewrite Ht.
    - exists []. by rewrite app_nil_r.
    - exists [EvMakedirs out]. split; [done|]. by repeat constructor. }
  destruct Hmk as (evs0 & Ht0 & He0).
  destruct (os.makedirs out w) as [w1 [e|[]]]; simpl in Ht0; [by eauto|].
  destruct (for_each_events src sz out
    (os.listdir_order (os.entries (fs w1) src)) w1) as (evs1 & Ht1 & He1).
  exists (evs0 ++ evs1 ++ [EvPrint ("Done. Output in: " +:+ out)]).
  simpl. rewrite Ht1, Ht0, <- !app_assoc. split; [done|].
  apply Forall_app. split; [done|]. apply Forall_app. split.
  - eapply Forall_impl; [exact He1|]. intros [p|p|p f q d|l]; simpl; [done| | |done].
    + intros (name & Hin & ->).
      apply listdir_names in Hin as (k & _ & Hk).
      apply entry_name_spec in Hk as (_ & ? & ?). by exists name.
    + intros (-> & -> & name & _ & ->). repeat split. by exists name.
  - by repeat constructor.
Qed.

End batch.

(** ** A run as a list of events *)

Section replay.
Context {platform : os.Platform} {pillow : Pillow}.

Lemma lookup_apply_events evs m k :
  apply_events evs m !! k =
    match last_save k evs with
    | Some data => Some (File data)
    | None => m !! k
    end.
Proof.
  revert m. induction evs as [|e evs IH]; intros m; [done|].
  simpl. unfold apply_events in *. simpl. rewrite IH.
  destruct (last_save k evs); [done|].
  destruct e as [p|p|p f q d|l]; simpl; try done.
  destruct (decide (p = k)) as [->|Hne].
  - by rewrite lookup_insert_eq.
  - by rewrite lookup_insert_ne.
Qed.

(** Replaying the saves of a run on its own result changes nothing. *)
Lemma apply_events_idem evs m :
  apply_events evs (apply_events evs m) = apply_events evs m.
Proof.
  apply map_eq. intros k. rewrite (lookup_apply_events evs (apply_events evs m)).
  rewrite lookup_apply_events. by destruct (last_save k evs).
Qed.

Lemma apply_events_agree evs m1 m2 k :
  m1 !! k = m2 !! k → apply_events evs m1 !! k = apply_events evs m2 !! k.
Proof. intros Hk. rewrite !lookup_apply_events. by destruct (last_save k evs). Qed.

Lemma apply_events_isdir_agree evs m1 m2 k :
  os.isdir_fs m1 k = os.isdir_fs m2 k →
  os.isdir_fs (apply_events evs m1) k = os.isdir_fs (apply_events evs m2) k.
Proof.
  unfold os.isdir_fs. rewrite !lookup_apply_events.
  by destruct (last_save k evs).
Qed.

Lemma apply_events_app evs1 evs2 m :
  apply_events (evs1 ++ evs2) m = apply_events evs2 (apply_events evs1 m).
Proof. apply fold_left_app. Qed.

Local Ltac replay_done :=
  unfold emit, apply_events; simpl; rewrite <- ?app_assoc; done.

Lemma process_entry_replay src sz out name w :
  process_entry src sz out name w
  = (World (apply_events (entry_events src sz out name (fs w)) (fs w))
       (trace w ++ entry_events src sz out name (fs w)),
     inr tt).
Proof.
  unfold entry_events.
  destruct (fs w !! posixpath.join src [name]) as [[|content]|] eqn:Hc.
  - rewrite process_entry_not_file.
    + rewrite app_nil_r. by destruct w.
    + unfold os.isfile_fs. by rewrite Hc.
  - rewrite process_entry_file by (apply isfile_fs_true; eauto).
    rewrite (open_and_convert_file _ _ _ _ _ _ Hc). cbv zeta.
    destruct (Image_decode content) as [e|img]; [replay_done|].
    destruct (ImageOps_fit img (sz, sz)) as [e|img']; [replay_done|].
    destruct (Image_encode img' "WEBP" 75) as [e|data]; [replay_done|].
    destruct (os.isdir_fs (fs w) (out_path_of out name)); replay_done.
  - rewrite process_entry_not_file.
    + rewrite app_nil_r. by destruct w.
    + unfold os.isfile_fs. by rewrite Hc.
Qed.

(** A round reads the file system at the input path, and at the output
    path for whether a directory is there, and nowhere else. *)
Lemma entry_events_ext src sz out name m1 m2 :
  m1 !! posixpath.join src [name] = m2 !! posixpath.join src [name] →
  os.isdir_fs m1 (out_path_of out name) = os.isdir_fs m2 (out_path_of out name) →
  entry_events src sz out name m1 = entry_events src sz out name m2.
Proof. intros Hin Hdir. unfold entry_events. by rewrite Hin, Hdir. Qed.

(** A round neither creates nor replaces a directory. *)
Lemma entry_events_isdir src sz out name m k :
  os.isdir_fs (apply_events (entry_events src sz out name m) m) k
  = os.isdir_fs m k.
Proof.
  unfold entry_events.
  destruct (m !! posixpath.join src [name]) as [[|content]|]; [done| |done].
  destruct (Image_decode content) as [e|img]; [done|].
  destruct (ImageOps_fit img (sz, sz)) as [e|img']; [done|].
  destruct (Image_encode img' "WEBP" 75) as [e|data]; [done|].
  destruct (os.isdir_fs m (out_path_of out name)) eqn:Hdir; [done|].
  unfold apply_events. simpl. unfold os.isdir_fs in *.
  destruct (decide (out_path_of out name = k)) as [<-|Hne].
  - rewrite lookup_insert_eq. by destruct (m !! out_path_of out name) as [[|?]|].
  - by rewrite lookup_insert_ne.
Qed.

Lemma for_each_replay src sz out names w :
  for_each names (process_entry src sz out) w
  = (World (apply_events (loop_events src sz out names (fs w)) (fs w))
       (trace w ++ loop_events src sz out names (fs w)),
     inr tt).
Proof.
  revert w. induction names as [|name names IH]; intros w.
  - simpl. rewrite app_nil_r. by destruct w.
  - rewrite for_each_cons, process_entry_replay, IH. simpl.
    by rewrite apply_events_app, <- app_assoc.
Qed.

Lemma loop_events_isdir src sz out names m k :
  os.isdir_fs (apply_events (loop_events src sz out names m) m) k
  = os.isdir_fs m k.
Proof.
  revert m. induction names as [|name names IH]; intros m; [done|].
  simpl. rewrite apply_events_app, IH. apply entry_events_isdir.
Qed.

Lemma loop_events_ext src sz out names m1 m2 :
  (∀ name, name ∈ names →
     m1 !! posixpath.join src [name] = m2 !! posixpath.join src [name]) →
  (∀ k, os.isdir_fs m1 k = os.isdir_fs m2 k) →
  loop_events src sz out names m1 = loop_events src sz out names m2.
Proof.
  revert m1 m2. induction names as [|name names IH]; intros m1 m2 Hin Hdir;
    [done|].
  simpl.
  rewrite (entry_events_ext src sz out name m1 m2);
    [|apply Hin; left|apply Hdir].
  f_equal. apply IH.
  - intros n Hn. apply apply_events_agree, Hin. by right.
  - intros k. apply apply_events_isdir_agree, Hdir.
Qed.

(** *** Creating the output folder *)

Lemma lookup_mkdir_all dirs (m : gmap string node) k :
  os.mkdir_all dirs m !! k = if decide (k ∈ dirs) then Some Dir else m !! k.
Proof.
  induction dirs as [|d dirs IH]; simpl; [done|].
  destruct (decide (k ∈ d :: dirs)) as [Hin'|Hnin'].
  - destruct (decide (d = k)) as [->|Hne]; [by rewrite lookup_insert_eq|].
    rewrite lookup_insert_ne, IH by done.
    apply elem_of_cons in Hin' as [?|Hin]; [congruence|].
    by rewrite decide_True.
  - apply not_elem_of_cons in Hnin' as [Hne Hnin].
    rewrite lookup_insert_ne, IH by done. by rewrite decide_False.
Qed.

Lemma makedirs_existing out w :
  os.isdir_fs (fs w) out = true → os.makedirs out w = (w, inr tt).
Proof.
  unfold os.isdir_fs, os.makedirs. by destruct (fs w !! out) as [[|?]|].
Qed.

(** A successful [makedirs] leaves a directory at its path, and changes the
    file system only by directories where nothing was. *)
Lemma makedirs_ok out w w1 :
  os.makedirs out w = (w1, inr tt) →
  os.isdir_fs (fs w1) out = true
  ∧ ∀ k, fs w1 !! k = fs w !! k ∨ (fs w !! k = None ∧ fs w1 !! k = Some Dir).
Proof.
  unfold os.makedirs, os.isdir_fs.
  destruct (fs w !! out) as [[|?]|] eqn:Hout; [| done |].
  - intros [= <-]. rewrite Hout. split; [done|]. by left.
  - destruct (list_find _ _) as [[? ?]|] eqn:Hfind; [done|].
    intros [= <-]. simpl. apply list_find_None in Hfind.
    split.
    + rewrite lookup_mkdir_all, decide_True; [done|].
      apply elem_of_app. right. left.
    + intros k. rewrite lookup_mkdir_all.
      destruct (decide (k ∈ os.ancestors out ++ [out])) as [Hin|Hnin];
        [|by left].
      apply elem_of_app in Hin as [Hin|Hin%list_elem_of_singleton].
      * rewrite Forall_forall in Hfind. specialize (Hfind _ Hin).
        unfold os.isfile_fs in Hfind.
        destruct (fs w !! k) as [[|?]|]; [by left|done|by right].
      * subst k. by right.
Qed.

(** *** Running twice *)

Lemma same_input_by_dom src (m1 m2 : gmap string node) :
  set_Forall (λ k, is_Some (os.entry_name src k) → m1 !! k = m2 !! k)
    (dom m1 ∪ dom m2) →
  same_input src m1 m2.
Proof.
  intros Hdom k Hk.
  destruct (decide (k ∈ dom m1 ∪ dom m2)) as [Hin|Hnin]; [by apply Hdom|].
  apply not_elem_of_union in Hnin as [H1 H2].
  apply not_elem_of_dom in H1, H2. congruence.
Qed.

Lemma same_input_entries src (m1 m2 : gmap string node) :
  same_input src m1 m2 → os.entries m1 src = os.entries m2 src.
Proof.
  intros Hsame. unfold os.entries. apply set_eq. intros n.
  rewrite !elem_of_set_omap.
  split; intros (k & Hk & Hn); exists k; (split; [|done]);
    apply elem_of_dom; apply elem_of_dom in Hk;
    [rewrite <- Hsame | rewrite Hsame]; by eauto.
Qed.

Lemma isdir_fs_true (m : gmap string node) k :
  os.isdir_fs m k = true ↔ m !! k = Some Dir.
Proof. unfold os.isdir_fs. by destruct (m !! k) as [[|?]|]. Qed.

(** C8: when a run has returned and has left the source folder as it was
    (the same direct entries with the same contents), a second run with the
    same arguments returns too, and ends with the file system of the first:
    every output file has the bytes that the first run gave it. *)
Theorem second_run_reproduces_first_run src sz out (w0 w1 : world) :
  process_source_images src sz out w0 = (w1, inr tt) →
  same_input src (fs w0) (fs w1) →
  ∃ w2, process_source_images src sz out w1 = (w2, inr tt) ∧ fs w2 = fs w1.
Proof.
  intros Hrun Hsame.
  destruct (os.isdir_fs (fs w0) src) eqn:Hsrc.
  2:{ by rewrite process_source_images_not_dir in Hrun. }
  rewrite process_source_images_dir in Hrun by done.
  destruct (os.makedirs out w0) as [wa [e|[]]] eqn:Hmk; [done|].
  apply makedirs_ok in Hmk as [Hout Hmk].
  rewrite for_each_replay in Hrun. simpl in Hrun.
  set (names := os.listdir_order (os.entries (fs wa) src)) in *.
  set (evs := loop_events src sz out names (fs wa)) in *.
  assert (Hfs1 : fs w1 = apply_events evs (fs wa)) by (by inversion Hrun).
  clear Hrun.
  assert (Hdirs : ∀ k, os.isdir_fs (fs w1) k = os.isdir_fs (fs wa) k).
  { intros k. rewrite Hfs1. apply loop_events_isdir. }
  assert (Hsame' : same_input src (fs wa) (fs w1)).
  { intros k Hk. destruct (Hmk k) as [->|[Hnone Hdir]]; [by apply Hsame|].
    apply isdir_fs_true in Hdir. rewrite <- Hdirs in Hdir.
    apply isdir_fs_true in Hdir. rewrite <- (Hsame k Hk) in Hdir. congruence. }
  assert (Hsrc1 : os.isdir_fs (fs w1) src = true).
  { rewrite Hdirs. apply isdir_fs_true. apply isdir_fs_true in Hsrc.
    destruct (Hmk src) as [->|[? ?]]; [done|congruence]. }
  rewrite process_source_images_dir by done.
  rewrite makedirs_existing by (by rewrite Hdirs).
  rewrite for_each_replay. simpl. eexists. split; [done|]. simpl.
  rewrite <- (same_input_entries src _ _ Hsame'). fold names.
  rewrite (loop_events_ext src sz out names (fs w1) (fs wa)).
  - fold evs. rewrite Hfs1. apply apply_events_idem.
  - intros name Hname. symmetry. apply Hsame'.
    apply listdir_names in Hname as (k & _ & Hk).
    pose proof (entry_name_spec _ _ _ Hk) as (-> & _). by eauto.
  - exact Hdirs.
Qed.

End replay.

(** ** The claims of the specification *)

Section claims.
Context {platform : os.Platform} {pillow : Pillow}.

(** C1, at a source folder that sits right under the root: for
    [/source_images/c] the code returns [processed_source_images/c_processed],
    a relative path, where
    [<project_root>/processed_source_images/<remainder>_processed] with the
    empty project root is [/processed_source_images/c_processed]. *)
Theorem sentinel_under_root_yields_relative_path (cwd : string) :
  _build_default_output_path cwd "/source_images/c"
  = "processed_source_images/c_processed"
  ∧ startswith_sep (_build_default_output_path cwd "/source_images/c") = false
  ∧ _build_default_output_path cwd "/source_images/c"
    ≠ sep_join [""] +:+ "/processed_source_images/" +:+ sep_join ["c"]
        +:+ "_processed".
Proof. repeat split; done. Qed.

(** C2: when no part of the absolute source path is ["source_images"], the
    default output path is the absolute source path with [_processed]
    appended: a directory with the same parent as the source, named
    [<source_dir_basename>_processed]. *)
Theorem default_output_path_is_sibling (cwd source_path : string) :
  sentinel ∉ split (posixpath.abspath cwd source_path) →
  _build_default_output_path cwd source_path
  = posixpath.abspath cwd source_path +:+ "_processed"
  ∧ posixpath.dirname (_build_default_output_path cwd source_path)
    = posixpath.dirname (posixpath.abspath cwd source_path)
  ∧ posixpath.basename (_build_default_output_path cwd source_path)
    = posixpath.basename (posixpath.abspath cwd source_path) +:+ "_processed".
Proof.
  intros Hnin. split; [by apply build_default_output_path_suffix|].
  by apply build_default_output_path_sibling.
Qed.

(** C3: when the source folder is not an existing directory, the run raises
    [ValueError] at once and leaves the world as it found it: no directory
    created, no file opened or saved, nothing printed. *)
Theorem missing_source_folder_raises_before_any_work src sz out (w : world) :
  os.isdir_fs (fs w) src = false →
  process_source_images src sz out w
  = (w, inl (ValueError ("Source folder not found: " +:+ src))).
Proof. apply process_source_images_not_dir. Qed.

(** A regular file that the three library calls accept is saved, unless
    a directory sits at the target. *)
Lemma process_entry_success src sz out name (w : world) content img img' data :
  fs w !! posixpath.join src [name] = Some (File content) →
  Image_decode content = inr img →
  ImageOps_fit img (sz, sz) = inr img' →
  Image_encode img' "WEBP" 75 = inr data →
  os.isdir_fs (fs w) (out_path_of out name) = false →
  process_entry src sz out name w
  = (World (<[out_path_of out name := File data]> (fs w))
       (trace w ++
          [EvOpen (posixpath.join src [name]);
           EvSave (out_path_of out name) "WEBP" 75 data;
           EvPrint ("Processed: " +:+ name +:+ " -> " +:+ out_path_of out name)]),
     inr tt).
Proof.
  intros Hc Hdec Hfit Henc Hdir.
  rewrite process_entry_file by (apply isfile_fs_true; eauto).
  rewrite (open_and_convert_file _ _ _ _ _ _ Hc). cbv zeta.
  rewrite Hdec, Hfit, Henc, Hdir. unfold emit. simpl.
  by rewrite <- !app_assoc.
Qed.

(** C6: a file that is processed successfully changes the file system at
    one path only, [<output folder>/<stem>.webp], which then holds the WebP
    encoding at quality 75 of the fitted image, whatever file was there
    before, and the only line printed is the progress line; and in a whole
    run every save is a WebP save at quality 75 to such a path. *)
Theorem processed_file_yields_one_webp_output :
  (∀ src sz out name (w : world) content img img' data,
     fs w !! posixpath.join src [name] = Some (File content) →
     Image_decode content = inr img →
     ImageOps_fit img (sz, sz) = inr img' →
     Image_encode img' "WEBP" 75 = inr data →
     os.isdir_fs (fs w)
       (posixpath.join out [(posixpath.splitext name).1 +:+ ".webp"]) = false →
     ∃ w', process_entry src sz out name w = (w', inr tt)
       ∧ fs w' = <[posixpath.join out [(posixpath.splitext name).1 +:+ ".webp"]
                   := File data]> (fs w)
       ∧ trace w' = trace w ++
           [EvOpen (posixpath.join src [name]);
            EvSave (posixpath.join out [(posixpath.splitext name).1 +:+ ".webp"])
              "WEBP" 75 data;
            EvPrint ("Processed: " +:+ name +:+ " -> " +:+
                     posixpath.join out [(posixpath.splitext name).1 +:+ ".webp"])])
  ∧ (∀ src sz out (w : world), ∃ evs,
       trace (process_source_images src sz out w).1 = trace w ++ evs
       ∧ ∀ p format quality data, EvSave p format quality data ∈ evs →
           format = "WEBP" ∧ quality = 75
           ∧ ∃ name, p = posixpath.join out
                           [(posixpath.splitext name).1 +:+ ".webp"]).
Proof.
  split.
  - intros src sz out name w content img img' data Hc Hdec Hfit Henc Hdir.
    eexists. split; [by eapply process_entry_success|]. done.
  - intros src sz out w.
    destruct (process_source_images_events src sz out w) as (evs & Ht & He).
    exists evs. split; [done|]. intros p format quality data Hin.
    rewrite Forall_forall in He. exact (He _ Hin).
Qed.

(** C7: an entry of the listing that is not a regular file leaves the world
    as it is (nothing saved, nothing printed); and in a whole run every file
    opened is [<source folder>/<name>] for a plain name, without separator:
    a direct entry, never something deeper. *)
Theorem only_direct_regular_files_are_processed :
  (∀ src sz out name (w : world),
     os.isfile_fs (fs w) (posixpath.join src [name]) = false →
     process_entry src sz out name w = (w, inr tt))
  ∧ (∀ src sz out (w : world), ∃ evs,
       trace (process_source_images src sz out w).1 = trace w ++ evs
       ∧ ∀ p, EvOpen p ∈ evs →
           ∃ name, p = posixpath.join src [name]
                   ∧ name ≠ "" ∧ contains is_sep name = false).
Proof.
  split.
  - intros src sz out name w. apply process_entry_not_file.
  - intros src sz out w.
    destruct (process_source_images_events src sz out w) as (evs & Ht & He).
    exists evs. split; [done|]. intros p Hin.
    rewrite Forall_forall in He. exact (He _ Hin).
Qed.

(** C9: two file names with the same stem are written to the same path;
    when both are processed successfully, one after the other, the file
    system has changed at that one path only and holds the output of the
    second, although two files were saved. *)
Theorem same_stem_outputs_collide src sz out n1 n2 (w : world)
    c1 c2 i1 i1' i2 i2' d1 d2 :
  n1 ≠ n2 →
  (posixpath.splitext n1).1 = (posixpath.splitext n2).1 →
  fs w !! posixpath.join src [n1] = Some (File c1) →
  Image_decode c1 = inr i1 → ImageOps_fit i1 (sz, sz) = inr i1' →
  Image_encode i1' "WEBP" 75 = inr d1 →
  os.isdir_fs (fs w) (out_path_of out n1) = false →
  <[out_path_of out n1 := File d1]> (fs w) !! posixpath.join src [n2]
    = Some (File c2) →
  Image_decode c2 = inr i2 → ImageOps_fit i2 (sz, sz) = inr i2' →
  Image_encode i2' "WEBP" 75 = inr d2 →
  out_path_of out n1 = out_path_of out n2
  ∧ ∃ w2, for_each [n1; n2] (process_entry src sz out) w = (w2, inr tt)
      ∧ fs w2 = <[out_path_of out n1 := File d2]> (fs w)
      ∧ dom (fs w2) = {[out_path_of out n1]} ∪ dom (fs w)
      ∧ trace w2 = trace w ++
          [EvOpen (posixpath.join src [n1]);
           EvSave (out_path_of out n1) "WEBP" 75 d1;
           EvPrint ("Processed: " +:+ n1 +:+ " -> " +:+ out_path_of out n1);
           EvOpen (posixpath.join src [n2]);
           EvSave (out_path_of out n1) "WEBP" 75 d2;
           EvPrint ("Processed: " +:+ n2 +:+ " -> " +:+ out_path_of out n1)].
Proof.
  intros _ Hstem Hc1 Hdec1 Hfit1 Henc1 Hdir Hc2 Hdec2 Hfit2 Henc2.
  assert (Hout : out_path_of out n1 = out_path_of out n2).
  { unfold out_path_of. by rewrite Hstem. }
  split; [done|].
  rewrite for_each_cons.
  rewrite (process_entry_success _ _ _ _ _ _ _ _ _ Hc1 Hdec1 Hfit1 Henc1 Hdir).
  rewrite for_each_cons.
  erewrite process_entry_success; [| exact Hc2 | done..|].
  2:{ simpl. rewrite <- Hout. unfold os.isdir_fs. by rewrite lookup_insert_eq. }
  simpl. eexists. split; [done|]. simpl. rewrite <- Hout.
  rewrite insert_insert_eq. split; [done|]. split; [by rewrite dom_insert_L|].
  by rewrite <- app_assoc.
Qed.

(** C10: an empty string as [output_folder] is falsy for [or], so the run
    is the run with the argument left out, on the default output path. *)
Theorem empty_output_folder_means_default cwd input sz :
  main cwd (Args input (Some "") sz) = main cwd (Args input None sz)
  ∧ main cwd (Args input (Some "") sz)
    = process_source_images input sz (_build_default_output_path cwd input).
Proof. split; reflexivity. Qed.

End claims.

(** ** A raising [try] block, on a host that can refuse *)

Section fallible_body.
Context {host : fallible.Host} {pillow : Pillow}.

(** What the [try] block does to a regular file, by cases on the host, on
    the three library calls and on the target of the write. *)
Lemma fallible_open_and_convert_file src sz out name (w : world) content :
  fs w !! posixpath.join src [name] = Some (File content) →
  fallible.open_and_convert (posixpath.join src [name]) sz name out w =
    let w1 := emit (EvOpen (posixpath.join src [name])) w in
    match fallible.read_error w (posixpath.join src [name]) with
    | Some e => (w1, inl e)
    | None =>
    match Image_decode content with
    | inl e => (w1, inl e)
    | inr img =>
    match ImageOps_fit img (sz, sz) with
    | inl e => (w1, inl e)
    | inr img' =>
    match fs w !! out_path_of out name with
    | Some Dir => (w1, inl (IsADirectoryError (out_path_of out name)))
    | existing =>
    match fallible.write_error w1 (out_path_of out name) with
    | Some e => (w1, inl e)
    | None =>
    match Image_encode img' "WEBP" 75 with
    | inl e =>
        (match existing with
         | Some _ => World (<[out_path_of out name := File []]> (fs w)) (trace w1)
         | None => w1
         end, inl e)
    | inr data =>
        fallible.print
          ("Processed: " +:+ name +:+ " -> " +:+ out_path_of out name)
          (emit (EvSave (out_path_of out name) "WEBP" 75 data)
             (World (<[out_path_of out name := File data]> (fs w)) (trace w1)))
    end end end end end end.
Proof.
  intros Hfile.
  unfold fallible.open_and_convert, fallible.convert, fallible.Image_open,
    ImageOps.fit, fallible.Image_save, out_path_of, mbind, M_bind.
  rewrite Hfile. simpl.
  destruct (fallible.read_error w _) as [e|]; [done|].
  destruct (Image_decode content) as [e|img]; [done|].
  destruct (ImageOps_fit img (sz, sz)) as [e|img']; [done|].
  destruct (posixpath.splitext name) as [base_name ext]. simpl.
  destruct (fs w !! posixpath.join_step out _) as [[|?]|]; [done| |].
  - destruct (fallible.write_error _ _) as [e|]; [done|].
    destruct (Image_encode img' "WEBP" 75) as [e|data]; [done|].
    unfold fallible.print. by destruct (fallible.print_error _ _).
  - destruct (fallible.write_error _ _) as [e|]; [done|].
    destruct (Image_encode img' "WEBP" 75) as [e|data]; [done|].
    unfold fallible.print. by destruct (fallible.print_error _ _).
Qed.

(** On a regular file, whatever the [try] block raises goes to the handler,
    and the round ends as the print of the skip line ends. *)
Lemma fallible_process_entry_file src sz out name (w : world) :
  os.isfile_fs (fs w) (posixpath.join src [name]) = true →
  fallible.process_entry src sz out name w =
    match fallible.open_and_convert (posixpath.join src [name]) sz name out w with
    | (w1, inl e) =>
        fallible.print ("Skipping " +:+ name +:+ ": " +:+ str e) w1
    | (w1, inr _) => (w1, inr tt)
    end.
Proof.
  intros Hf.
  unfold fallible.process_entry, os.isfile, mbind, M_bind, try_except.
  rewrite Hf. simpl.
  destruct (fallible.open_and_convert _ _ _ _ w) as [w1 [e|[]]]; done.
Qed.

(** C4, as the code has it: on a regular file, whatever the [try] block
    raises is caught, and the round goes on to print the skip line.  If the
    console takes the line, the round returns and the loop goes on with the
    remaining files; if the print raises, that exception leaves the loop and
    the remaining files are not processed.  As for the output: either the
    file system is as the round found it; or the encoder has raised and a
    file that was already at the output path is now empty, the target being
    opened for writing before the encoder runs; or the thumbnail has been
    saved and it is the progress line that could not be printed. *)
Theorem raised_try_block_is_caught src sz out name rest (w w1 : world) (e : exn) :
  os.isfile_fs (fs w) (posixpath.join src [name]) = true →
  fallible.open_and_convert (posixpath.join src [name]) sz name out w
  = (w1, inl e) →
  fallible.process_entry src sz out name w
  = fallible.print ("Skipping " +:+ name +:+ ": " +:+ str e) w1
  ∧ (fallible.print_error w1 ("Skipping " +:+ name +:+ ": " +:+ str e) = None →
     fallible.process_entry src sz out name w
     = (emit (EvPrint ("Skipping " +:+ name +:+ ": " +:+ str e)) w1, inr tt)
     ∧ for_each (name :: rest) (fallible.process_entry src sz out) w
       = for_each rest (fallible.process_entry src sz out)
           (emit (EvPrint ("Skipping " +:+ name +:+ ": " +:+ str e)) w1))
  ∧ (∀ e', fallible.print_error w1 ("Skipping " +:+ name +:+ ": " +:+ str e)
           = Some e' →
     for_each (name :: rest) (fallible.process_entry src sz out) w
     = (w1, inl e'))
  ∧ (fs w1 = fs w
     ∧ trace w1 = trace w ++ [EvOpen (posixpath.join src [name])]
     ∨ (∃ content img', fs w !! out_path_of out name = Some (File content)
          ∧ Image_encode img' "WEBP" 75 = inl e
          ∧ fs w1 = <[out_path_of out name := File []]> (fs w)
          ∧ trace w1 = trace w ++ [EvOpen (posixpath.join src [name])])
     ∨ (∃ data, fs w1 = <[out_path_of out name := File data]> (fs w)
          ∧ trace w1 = trace w ++
              [EvOpen (posixpath.join src [name]);
               EvSave (out_path_of out name) "WEBP" 75 data]
          ∧ fallible.print_error w1
              ("Processed: " +:+ name +:+ " -> " +:+ out_path_of out name)
            = Some e)).
Proof.
  intros Hf Hraise.
  assert (Hstep : fallible.process_entry src sz out name w
    = fallible.print ("Skipping " +:+ name +:+ ": " +:+ str e) w1).
  { rewrite fallible_process_entry_file by done. by rewrite Hraise. }
  split; [done|]. split; [|split].
  - intros Hprint.
    assert (Hret : fallible.process_entry src sz out name w
      = (emit (EvPrint ("Skipping " +:+ name +:+ ": " +:+ str e)) w1, inr tt)).
    { rewrite Hstep. unfold fallible.print. by rewrite Hprint. }
    split; [done|]. by rewrite for_each_cons, Hret.
  - intros e' Hprint. rewrite for_each_cons, Hstep.
    unfold fallible.print. by rewrite Hprint.
  - pose proof Hf as [content Hc]%isfile_fs_true.
    rewrite (fallible_open_and_convert_file _ _ _ _ _ _ Hc) in Hraise.
    cbv zeta in Hraise.
    destruct (fallible.read_error w _) as [?|];
      [inversion Hraise; by left|].
    destruct (Image_decode content) as [?|img];
      [inversion Hraise; by left|].
    destruct (ImageOps_fit img (sz, sz)) as [?|img'];
      [inversion Hraise; by left|].
    destruct (fs w !! out_path_of out name) as [[|c]|] eqn:Hout;
      [inversion Hraise; by left| |].
    + destruct (fallible.write_error _ _) as [?|];
        [inversion Hraise; by left|].
      destruct (Image_encode img' "WEBP" 75) as [?|data] eqn:Henc.
      * injection Hraise as <- <-. right; left. by exists c, img'.
      * unfold fallible.print in Hraise.
        destruct (fallible.print_error _ _) as [?|] eqn:Hprint; [|done].
        injection Hraise as <- <-. right; right. exists data.
        split; [done|]. split; [|exact Hprint].
        unfold emit. simpl. by rewrite <- app_assoc.
    + destruct (fallible.write_error _ _) as [?|];
        [inversion Hraise; by left|].
      destruct (Image_encode img' "WEBP" 75) as [?|data] eqn:Henc.
      * inversion Hraise; by left.
      * unfold fallible.print in Hraise.
        destruct (fallible.print_error _ _) as [?|] eqn:Hprint; [|done].
        injection Hraise as <- <-. right; right. exists data.
        split; [done|]. split; [|exact Hprint].
        unfold emit. simpl. by rewrite <- app_assoc.
Qed.

(** On a host that refuses nothing, the round above is the round of
    [process_source.process_entry], except where the encoder raises over an
    output path that is taken. *)
Lemma quiet_host_process_entry src sz out name (w : world) :
  (∀ w line, fallible.print_error w line = None) →
  (∀ w path, fallible.read_error w path = None) →
  (∀ w path, fallible.write_error w path = None) →
  (∀ content img img' e,
     fs w !! posixpath.join src [name] = Some (File content) →
     Image_decode content = inr img → ImageOps_fit img (sz, sz) = inr img' →
     Image_encode img' "WEBP" 75 = inl e →
     fs w !! out_path_of out name = None) →
  fallible.process_entry src sz out name w = process_entry src sz out name w.
Proof.
  intros Hprint Hread Hwrite Hfree.
  destruct (os.isfile_fs (fs w) (posixpath.join src [name])) eqn:Hf.
  2:{ rewrite process_entry_not_file by done.
      unfold fallible.process_entry, os.isfile, mbind, M_bind. by rewrite Hf. }
  rewrite fallible_process_entry_file, process_entry_file by done.
  pose proof Hf as [content Hc]%isfile_fs_true.
  rewrite (fallible_open_and_convert_file _ _ _ _ _ _ Hc).
  rewrite (open_and_convert_file _ _ _ _ _ _ Hc). cbv zeta.
  rewrite Hread. unfold fallible.print, os.isdir_fs.
  destruct (Image_decode content) as [e|img] eqn:Hdec; [by rewrite Hprint|].
  destruct (ImageOps_fit img (sz, sz)) as [e|img'] eqn:Hfit; [by rewrite Hprint|].
  destruct (Image_encode img' "WEBP" 75) as [e|data] eqn:Henc.
  - rewrite (Hfree _ _ _ _ Hc Hdec Hfit Henc), Hwrite. by rewrite Hprint.
  - destruct (fs w !! out_path_of out name) as [[|c]|];
      rewrite ?Hwrite, !Hprint; done.
Qed.

End fallible_body.

(** ** The claims at the sample instance *)

Lemma default_output_path_is_sibling_witness :
  (sentinel ∉ split (posixpath.abspath "/home/u" "/x/y/myfolder"))
  ∧ _build_default_output_path "/home/u" "/x/y/myfolder"
    = "/x/y/myfolder_processed".
Proof.
  assert (H : sentinel ∉ split (posixpath.abspath "/home/u" "/x/y/myfolder")).
  { apply (bool_decide_unpack _). vm_compute. exact I. }
  split; [exact H|].
  exact (proj1 (default_output_path_is_sibling "/home/u" "/x/y/myfolder" H)).
Defined.

Lemma missing_source_folder_raises_before_any_work_witness :
  os.isdir_fs (fs sample.w0) "/nope" = false
  ∧ process_source_images (platform := sample.platform)
      (pillow := sample.pillow) "/nope" 35 "/out" sample.w0
    = (sample.w0, inl (ValueError "Source folder not found: /nope")).
Proof.
  assert (H : os.isdir_fs (fs sample.w0) "/nope" = false) by reflexivity.
  split; [exact H|].
  exact (missing_source_folder_raises_before_any_work
           (platform := sample.platform) (pillow := sample.pillow)
           "/nope" 35 "/out" sample.w0 H).
Defined.

(** C4 as the specification has it fails on both counts.  A file that does
    not decode, under a name that the console cannot print, ends the loop
    with the exception of the skip line: the file after it is never opened.
    And a file whose encoding fails leaves the thumbnail of an earlier run,
    which was at its output path, empty. *)
Lemma failed_file_can_abort_the_batch_and_empty_an_output :
  (∃ w' msg,
     for_each [sample.odd_name; "a.png"]
       (fallible.process_entry (host := sample.strict_console)
          (pillow := sample.pillow) "/in" 35 "/out") sample.w_trouble
     = (w', inl (Exn "UnicodeEncodeError" msg))
     ∧ trace w' = [EvOpen ("/in/" +:+ sample.odd_name)])
  ∧ (∃ w',
       fallible.process_entry (host := sample.strict_console)
         (pillow := sample.limited_pillow) "/in" 20000 "/out" "a.png"
         sample.w_trouble
       = (w', inr tt)
       ∧ fs sample.w_trouble !! "/out/a.webp"
         = Some (File [Byte.x6b; Byte.x65; Byte.x65; Byte.x70])
       ∧ fs w' !! "/out/a.webp" = Some (File [])).
Proof.
  split.
  - eexists _, _. split; [vm_compute; reflexivity|]. reflexivity.
  - eexists. split; [vm_compute; reflexivity|]. split; reflexivity.
Qed.

Lemma raised_try_block_is_caught_witness :
  let w1 := World (<["/out/a.webp" := File []]> sample.files_trouble)
              [EvOpen "/in/a.png"] in
  let e := Exn "OSError" "cannot write file as WebP (encoder returned None)" in
  os.isfile_fs (fs sample.w_trouble) (posixpath.join "/in" ["a.png"]) = true
  ∧ fallible.open_and_convert (host := sample.strict_console)
      (pillow := sample.limited_pillow)
      (posixpath.join "/in" ["a.png"]) 20000 "a.png" "/out" sample.w_trouble
    = (w1, inl e)
  ∧ fallible.process_entry (host := sample.strict_console)
      (pillow := sample.limited_pillow) "/in" 20000 "/out" "a.png"
      sample.w_trouble
    = (emit (EvPrint ("Skipping a.png: " +:+ str e)) w1, inr tt).
Proof.
  intros w1 e.
  assert (H1 : os.isfile_fs (fs sample.w_trouble) (posixpath.join "/in" ["a.png"])
               = true) by reflexivity.
  assert (H2 : fallible.open_and_convert (host := sample.strict_console)
      (pillow := sample.limited_pillow)
      (posixpath.join "/in" ["a.png"]) 20000 "a.png" "/out" sample.w_trouble
    = (w1, inl e)) by (vm_compute; reflexivity).
  split; [exact H1|]. split; [exact H2|].
  exact (proj1 (proj1 (proj2 (raised_try_block_is_caught
                  (host := sample.strict_console)
                  (pillow := sample.limited_pillow)
                  "/in" 20000 "/out" "a.png" [] sample.w_trouble w1 e H1 H2))
           eq_refl)).
Defined.

Lemma processed_file_yields_one_webp_output_witness :
  fs sample.w0 !! posixpath.join "/in" ["a.png"]
    = Some (File [Byte.x04; Byte.x02])
  ∧ ∃ w', process_entry (pillow := sample.pillow) "/in" 35 "/out" "a.png"
            sample.w0 = (w', inr tt)
      ∧ fs w' = <["/out/a.webp" := File [Byte.x23; Byte.x23; Byte.x4b]]>
                  sample.files.
Proof.
  assert (H1 : fs sample.w0 !! posixpath.join "/in" ["a.png"]
               = Some (File [Byte.x04; Byte.x02])) by reflexivity.
  split; [exact H1|].
  destruct (proj1 (processed_file_yields_one_webp_output
                     (platform := sample.platform) (pillow := sample.pillow))
              "/in" 35 "/out" "a.png" sample.w0
              [Byte.x04; Byte.x02] (4, 2) (35, 35)
              [Byte.x23; Byte.x23; Byte.x4b]
              H1 eq_refl eq_refl eq_refl eq_refl)
    as (w' & Hrun & Hfs & _).
  exists w'. split; [exact Hrun | exact Hfs].
Defined.

Lemma only_direct_regular_files_are_processed_witness :
  os.isfile_fs (fs sample.w0) (posixpath.join "/in" ["sub"]) = false
  ∧ process_entry (pillow := sample.pillow) "/in" 35 "/out" "sub" sample.w0
    = (sample.w0, inr tt).
Proof.
  assert (H1 : os.isfile_fs (fs sample.w0) (posixpath.join "/in" ["sub"])
               = false) by reflexivity.
  split; [exact H1|].
  exact (proj1 (only_direct_regular_files_are_processed
                  (platform := sample.platform) (pillow := sample.pillow))
           "/in" 35 "/out" "sub" sample.w0 H1).
Defined.

Lemma same_stem_outputs_collide_witness :
  out_path_of "/out" "a.jpg" = out_path_of "/out" "a.png"
  ∧ ∃ w2, for_each ["a.jpg"; "a.png"]
            (process_entry (pillow := sample.pillow) "/in" 35 "/out") sample.w0
          = (w2, inr tt)
      ∧ fs w2 = <["/out/a.webp" := File [Byte.x23; Byte.x23; Byte.x4b]]>
                  sample.files.
Proof.
  destruct (same_stem_outputs_collide (pillow := sample.pillow)
              "/in" 35 "/out" "a.jpg" "a.png" sample.w0
              [Byte.x03; Byte.x03] [Byte.x04; Byte.x02]
              (3, 3) (35, 35) (4, 2) (35, 35)
              [Byte.x23; Byte.x23; Byte.x4b] [Byte.x23; Byte.x23; Byte.x4b]
              ltac:(discriminate) eq_refl eq_refl eq_refl eq_refl eq_refl
              eq_refl eq_refl eq_refl eq_refl eq_refl)
    as (Hout & w2 & Hrun & Hfs & _).
  split; [exact Hout|]. exists w2. split; [exact Hrun | exact Hfs].
Defined.

Lemma second_run_reproduces_first_run_witness :
  let run := process_source_images (platform := sample.platform)
               (pillow := sample.pillow) "/in" 35 "/out" in
  same_input "/in" (fs sample.w0) (fs (run sample.w0).1)
  ∧ ∃ w2, run (run sample.w0).1 = (w2, inr tt)
          ∧ fs w2 = fs (run sample.w0).1.
Proof.
  intros run.
  assert (H1 : run sample.w0 = ((run sample.w0).1, inr tt))
    by (vm_compute; reflexivity).
  assert (H2 : same_input "/in" (fs sample.w0) (fs (run sample.w0).1)).
  { apply same_input_by_dom. apply (bool_decide_unpack _).
    vm_compute. exact I. }
  split; [exact H2|].
  exact (second_run_reproduces_first_run (platform := sample.platform)
           (pillow := sample.pillow) "/in" 35 "/out" sample.w0
           (run sample.w0).1 H1 H2).
Defined.

(** ** Further properties of the default output path *)

Section more_default_output_path.

(** X1: when the absolute source path is [<root>/source_images/<rest>],
    with a non-empty [root] that has no [source_images] part of its own, the
    default output path is [<root>/processed_source_images/<rest>_processed]:
    the cut is at the first sentinel, later ones stay in the remainder; and
    when the path ends at the sentinel, the output folder is named
    [_processed]. *)
Theorem sentinel_branch_cuts_at_first_sentinel cwd source_path root :
  sentinel ∉ split root → root ≠ "" → endswith_sep root = false →
  (∀ rest,
     posixpath.abspath cwd source_path = root +:+ "/source_images/" +:+ rest →
     _build_default_output_path cwd source_path
     = root +:+ "/processed_source_images/" +:+ rest +:+ "_processed")
  ∧ (posixpath.abspath cwd source_path = root +:+ "/source_images" →
     _build_default_output_path cwd source_path
     = root +:+ "/processed_source_images/_processed").
Proof.
  intros Hfirst Hne Hend. split.
  - intros rest Habs.
    assert (Hsplit : split (posixpath.abspath cwd source_path)
                     = split root ++ sentinel :: split rest).
    { rewrite Habs.
      change (root +:+ "/source_images/" +:+ rest)
        with (root +:+ String "/" ("source_images" +:+ String "/" rest)).
      rewrite !split_app_sep. done. }
    rewrite (build_default_output_path_sentinel _ _ _ _ Hsplit Hfirst);
      rewrite !sep_join_split; done.
  - intros Habs.
    assert (Hsplit : split (posixpath.abspath cwd source_path)
                     = split root ++ sentinel :: []).
    { rewrite Habs.
      change (root +:+ "/source_images")
        with (root +:+ String "/" "source_images").
      rewrite split_app_sep. done. }
    rewrite (build_default_output_path_sentinel _ _ _ _ Hsplit Hfirst);
      rewrite ?sep_join_split; done.
Qed.

Lemma sentinel_branch_cuts_at_first_sentinel_witness :
  (sentinel ∉ split "/a/b")
  ∧ _build_default_output_path "/home/u" "/a/b/source_images/c/source_images/d"
    = "/a/b/processed_source_images/c/source_images/d_processed".
Proof.
  assert (H1 : sentinel ∉ split "/a/b").
  { apply (bool_decide_unpack _). vm_compute. exact I. }
  split; [exact H1|].
  exact (proj1 (sentinel_branch_cuts_at_first_sentinel "/home/u"
                  "/a/b/source_images/c/source_images/d" "/a/b"
                  H1 ltac:(discriminate) eq_refl)
           "c/source_images/d" eq_refl).
Defined.

End more_default_output_path.

(** ** Further properties of a run *)

Section more_batch.
Context {platform : os.Platform} {pillow : Pillow}.

Lemma makedirs_raise_unchanged out (w w1 : world) e :
  os.makedirs out w = (w1, inl e) → w1 = w.
Proof.
  unfold os.makedirs.
  destruct (fs w !! out) as [[|?]|]; [done|by intros [= <-]|].
  destruct (list_find _ _) as [[? ?]|]; [by intros [= <-]|done].
Qed.




End more_batch.


(** ** What a run leaves alone *)

Section accounting.
Context {platform : os.Platform} {pillow : Pillow}.

(** *** Paths that end in [.webp] *)

Lemma endswith_unfold (suffix s : string) :
  endswith suffix s
  = if decide (s = suffix) then true
    else match s with
         | EmptyString => false
         | String _ s' => endswith suffix s'
         end.
Proof. by destruct s. Qed.

Lemma endswith_app (suffix a : string) : endswith suffix (a +:+ suffix) = true.
Proof.
  induction a as [|c a IH]; rewrite endswith_unfold.
  - by rewrite app_nil_l, decide_True.
  - rewrite app_cons. by destruct (decide _).
Qed.

Lemma endswith_out_path (out name : string) :
  endswith ".webp" (out_path_of out name) = true.
Proof.
  unfold out_path_of, posixpath.join, posixpath.join_step. simpl fold_left.
  destruct (startswith_sep _); [apply endswith_app|].
  destruct (_ || _); rewrite <- ?app_assoc'; apply endswith_app.
Qed.

Lemma last_save_Some k evs data :
  last_save k evs = Some data → ∃ format quality, EvSave k format quality data ∈ evs.
Proof.
  induction evs as [|e evs IH]; [done|]. simpl.
  destruct (last_save k evs) as [d|].
  - intros [= ->]. destruct IH as (f & q & Hin); [done|].
    exists f, q. by right.
  - destruct e as [p|p|p f q d|l]; try done.
    destruct (decide (p = k)) as [->|]; [|done].
    intros [= ->]. exists f, q. left.
Qed.

Lemma loop_events_loop_event src sz out names (m : gmap string node) :
  Forall (loop_event src out names) (loop_events src sz out names m).
Proof.
  destruct (for_each_events src sz out names (World m [])) as (evs & Ht & He).
  rewrite for_each_replay in Ht. simpl in Ht. by subst evs.
Qed.

(** X5: a run removes nothing.  A directory that exists stays a directory,
    and a file that exists keeps its content, unless its path ends in
    [.webp], in which case it may have been replaced by a thumbnail. *)
Theorem run_keeps_existing_paths src sz out (w : world) k nd :
  fs w !! k = Some nd →
  match nd with
  | Dir => fs (process_source_images src sz out w).1 !! k = Some Dir
  | File content =>
      fs (process_source_images src sz out w).1 !! k = Some (File content)
      ∨ endswith ".webp" k = true
        ∧ ∃ content', fs (process_source_images src sz out w).1 !! k
                      = Some (File content')
  end.
Proof.
  intros Hk. destruct (os.isdir_fs (fs w) src) eqn:Hsrc.
  2:{ rewrite process_source_images_not_dir by done. simpl.
      destruct nd; [done|by left]. }
  rewrite process_source_images_dir by done.
  destruct (os.makedirs out w) as [wa [e|[]]] eqn:Hmk.
  { apply makedirs_raise_unchanged in Hmk as ->. simpl.
    destruct nd; [done|by left]. }
  apply makedirs_ok in Hmk as [_ Hmk].
  assert (Hka : fs wa !! k = Some nd).
  { destruct (Hmk k) as [->|[? ?]]; [done|congruence]. }
  rewrite for_each_replay. simpl.
  set (names := os.listdir_order (os.entries (fs wa) src)).
  destruct nd as [|content].
  - apply isdir_fs_true. rewrite loop_events_isdir. by apply isdir_fs_true.
  - rewrite lookup_apply_events.
    destruct (last_save k _) as [data|] eqn:Hlast; [|by left].
    right. apply last_save_Some in Hlast as (f & q & Hin).
    pose proof (loop_events_loop_event src sz out names (fs wa)) as Hall.
    rewrite Forall_forall in Hall. specialize (Hall _ Hin).
    destruct Hall as (_ & _ & name & _ & ->).
    split; [apply endswith_out_path | by eauto].
Qed.

End accounting.

Lemma run_keeps_existing_paths_witness :
  fs sample.w0 !! "/in/a.png" = Some (File [Byte.x04; Byte.x02])
  ∧ fs (process_source_images (platform := sample.platform)
          (pillow := sample.pillow) "/in" 35 "/in" sample.w0).1 !! "/in/a.png"
    = Some (File [Byte.x04; Byte.x02]).
Proof.
  assert (H1 : fs sample.w0 !! "/in/a.png" = Some (File [Byte.x04; Byte.x02]))
    by reflexivity.
  split; [exact H1|].
  destruct (run_keeps_existing_paths (platform := sample.platform)
              (pillow := sample.pillow) "/in" 35 "/in" sample.w0
              "/in/a.png" (File [Byte.x04; Byte.x02]) H1)
    as [Hsame|[Hends _]]; [exact Hsame|].
  vm_compute in Hends. discriminate Hends.
Defined.

(** ** Output names *)

Section output_names.

Lemma str_length_app (a b : string) :
  String.length (a +:+ b) = (String.length a + String.length b)%nat.
Proof. induction a as [|c a IH]; [done|]. rewrite app_cons. simpl. by rewrite IH. Qed.

Lemma app_inj_r (a b c : string) : a +:+ c = b +:+ c → a = b.
Proof.
  revert b. induction a as [|x a IH]; intros [|y b] Heq; [done| | |].
  - apply (f_equal String.length) in Heq.
    rewrite app_nil_l, app_cons in Heq. simpl in Heq.
    rewrite str_length_app in Heq. lia.
  - apply (f_equal String.length) in Heq.
    rewrite app_nil_l, app_cons in Heq. simpl in Heq.
    rewrite str_length_app in Heq. lia.
  - rewrite !app_cons in Heq. injection Heq as -> Heq. by rewrite (IH b).
Qed.

Lemma cut_at_last_app p (s h t : string) :
  cut_at_last p s = Some (h, t) → s = h +:+ t.
Proof.
  revert h t. induction s as [|c s IH]; intros h t; [done|]. simpl.
  destruct (cut_at_last p s) as [[h' t']|].
  - intros [= <- <-]. rewrite app_cons. by rewrite (IH h' t').
  - destruct (p c); [|done]. by intros [= <- <-].
Qed.

(** [os.path.splitext] loses nothing: stem and extension make up the path. *)
Lemma splitext_app (p : string) :
  (posixpath.splitext p).1 +:+ (posixpath.splitext p).2 = p.
Proof.
  unfold posixpath.splitext.
  destruct (cut_after_last_spec p) as (h & t & Hcut & Hp & _).
  rewrite Hcut.
  destruct (cut_at_last is_dot t) as [[stem ext]|] eqn:Hdot;
    [|by rewrite app_empty_r].
  apply cut_at_last_app in Hdot.
  destruct (contains _ stem); [|by rewrite app_empty_r].
  simpl. by rewrite app_assoc', <- Hdot.
Qed.

Lemma splitext_stem_plain (name : string) :
  contains is_sep name = false →
  startswith_sep ((posixpath.splitext name).1 +:+ ".webp") = false.
Proof.
  intros Hplain. rewrite <- (splitext_app name), contains_app in Hplain.
  apply orb_false_iff in Hplain as [Hstem _].
  destruct (posixpath.splitext name).1 as [|c stem]; [done|].
  rewrite app_cons. simpl in *. by apply orb_false_iff in Hstem as [-> _].
Qed.

(** The output path of a plain name: the output folder, a separator unless
    the folder brings its own or is empty, the stem, [.webp]. *)
Lemma out_path_of_plain (out name : string) :
  contains is_sep name = false →
  out_path_of out name
  = os.dir_prefix out +:+ (posixpath.splitext name).1 +:+ ".webp".
Proof.
  intros Hplain. unfold out_path_of, posixpath.join, posixpath.join_step.
  simpl fold_left. rewrite splitext_stem_plain by done.
  unfold os.dir_prefix. destruct (_ || _); [done|]. by rewrite app_assoc'.
Qed.

(** X6: two plain file names are written to the same output path exactly
    when they have the same stem; files whose names differ in more than the
    extension never overwrite each other's output. *)
Theorem outputs_collide_only_for_equal_stems (out n1 n2 : string) :
  contains is_sep n1 = false → contains is_sep n2 = false →
  out_path_of out n1 = out_path_of out n2
  ↔ (posixpath.splitext n1).1 = (posixpath.splitext n2).1.
Proof.
  intros H1 H2. rewrite !out_path_of_plain by done. split.
  - intros Heq. apply (inj (String.app (os.dir_prefix out))) in Heq.
    by apply app_inj_r in Heq.
  - by intros ->.
Qed.

End output_names.

Lemma outputs_collide_only_for_equal_stems_witness :
  contains is_sep "photo.v2.png" = false
  ∧ out_path_of "/out" "photo.v2.png" ≠ out_path_of "/out" "photo.v3.png".
Proof.
  assert (H1 : contains is_sep "photo.v2.png" = false) by reflexivity.
  assert (H2 : contains is_sep "photo.v3.png" = false) by reflexivity.
  split; [exact H1|].
  intros Heq.
  apply (proj1 (outputs_collide_only_for_equal_stems "/out" _ _ H1 H2)) in Heq.
  vm_compute in Heq. discriminate Heq.
Defined.

(** ** Where a run writes *)

Section frame.
Context {platform : os.Platform} {pillow : Pillow}.

Lemma makedirs_frame out (w : world) k :
  k ∉ os.ancestors out ++ [out] → fs (os.makedirs out w).1 !! k = fs w !! k.
Proof.
  intros Hk. unfold os.makedirs.
  destruct (fs w !! out) as [[|?]|]; [done..|].
  destruct (list_find _ _) as [[? ?]|]; [done|]. simpl.
  by rewrite lookup_mkdir_all, decide_False.
Qed.

(** Every path is as it was after a run, or is the output folder or a folder
    above it, or is the output path of a plain name. *)
Lemma run_frame src sz out (w : world) k :
  fs (process_source_images src sz out w).1 !! k = fs w !! k
  ∨ k ∈ os.ancestors out ++ [out]
  ∨ ∃ name, name ≠ "" ∧ contains is_sep name = false
            ∧ k = out_path_of out name.
Proof.
  destruct (os.isdir_fs (fs w) src) eqn:Hsrc.
  2:{ rewrite process_source_images_not_dir by done. by left. }
  rewrite process_source_images_dir by done.
  destruct (decide (k ∈ os.ancestors out ++ [out])) as [Hin|Hnin];
    [by right; left|].
  pose proof (makedirs_frame out w k Hnin) as Hmk.
  destruct (os.makedirs out w) as [wa [e|[]]]; [by left|].
  simpl in Hmk. rewrite for_each_replay. simpl.
  rewrite lookup_apply_events.
  destruct (last_save k _) as [data|] eqn:Hlast; [|by left].
  right; right. apply last_save_Some in Hlast as (f & q & Hin).
  pose proof (loop_events_loop_event src sz out
    (os.listdir_order (os.entries (fs wa) src)) (fs wa)) as Hall.
  rewrite Forall_forall in Hall. specialize (Hall _ Hin).
  destruct Hall as (_ & _ & name & Hname & ->).
  apply listdir_names in Hname as (k' & _ & Hname).
  apply entry_name_spec in Hname as (_ & ? & ?). by exists name.
Qed.

(** X7: whatever a run changes in the file system is the output folder or
    a folder above it, or the output path [<output folder>/<stem>.webp] of a
    plain name; it writes nowhere else. *)
Theorem run_writes_only_under_output_folder src sz out (w : world) k :
  fs (process_source_images src sz out w).1 !! k ≠ fs w !! k →
  k ∈ os.ancestors out ++ [out]
  ∨ ∃ name, name ≠ "" ∧ contains is_sep name = false
            ∧ k = os.dir_prefix out +:+ (posixpath.splitext name).1 +:+ ".webp".
Proof.
  intros Hne.
  destruct (run_frame src sz out w k) as [Heq|[Hin|(name & ? & Hplain & ->)]];
    [done|by left|].
  right. exists name. by rewrite out_path_of_plain.
Qed.

(** *** The default output folder and the source folder *)

Lemma split_app_plain_length (a b : string) :
  contains is_sep b = false → length (split (a +:+ b)) = length (split a).
Proof.
  intros Hb. induction a as [|c a IH].
  - by rewrite app_nil_l, split_sep_free.
  - rewrite app_cons. simpl. destruct (is_sep c); simpl; [by rewrite IH|].
    pose proof (split_nonempty (a +:+ b)) as H1.
    pose proof (split_nonempty a) as H2.
    destruct (split (a +:+ b)), (split a); simpl in *; done.
Qed.

Lemma elem_of_ancestors (p a : string) :
  a ∈ os.ancestors p →
  ∃ j, (0 < j < length (split p))%nat ∧ a = sep_join (take j (split p)).
Proof.
  unfold os.ancestors. intros [_ Hin]%list_elem_of_filter.
  apply list_elem_of_omap in Hin as (j & Hj & Ha).
  apply elem_of_seq in Hj. destruct j as [|j]; [done|].
  injection Ha as <-. exists (S j). split; [lia|done].
Qed.

(** A normalised path that is not made of slashes only is not empty and
    does not end in a slash. *)
Lemma normpath_no_trailing_sep (p : string) :
  all_sep (posixpath.normpath p) = false →
  posixpath.normpath p ≠ "" ∧ endswith_sep (posixpath.normpath p) = false.
Proof.
  intros Hall.
  destruct (normpath_parts p) as (k & comps & Hparts & Hcomps).
  pose proof (sep_join_split (posixpath.normpath p)) as Hp.
  rewrite Hparts in Hp. rewrite <- Hp in *. clear Hp Hparts.
  destruct comps as [|c comps _] using rev_ind.
  - by rewrite app_nil_r, all_sep_join_replicate in Hall.
  - apply Forall_app in Hcomps as [_ Hc]. rewrite app_assoc.
    destruct (sep_join_snoc_component (replicate k "" ++ comps) c) as [? ?];
      [by inversion Hc|done].
Qed.

(** An entry of a folder is not a folder above [<folder>_processed]. *)
Lemma entry_not_ancestor_of_sibling (input n : string) :
  contains is_sep n = false →
  input +:+ "/" +:+ n ∉ os.ancestors (input +:+ "_processed").
Proof.
  intros Hn (j & Hj & Ha)%elem_of_ancestors.
  rewrite split_app_plain_length in Hj by done.
  apply (f_equal split) in Ha.
  change (input +:+ "/" +:+ n) with (input +:+ String "/" n) in Ha.
  rewrite split_app_sep, (split_sep_free n) in Ha by done.
  rewrite split_sep_join in Ha.
  - apply (f_equal length) in Ha.
    rewrite length_app, length_take in Ha. simpl in Ha. lia.
  - intros Hnil. apply (f_equal length) in Hnil.
    rewrite length_take, split_app_plain_length in Hnil by done.
    simpl in Hnil. lia.
  - apply Forall_forall. intros x Hx.
    apply (split_no_sep (input +:+ "_processed")).
    by apply (subseteq_take j).
Qed.

(** X8: with the output folder left to the default, for a source folder
    given by its normalised absolute path, other than the root and without
    a [source_images] part, a run leaves the source folder as it was: the
    same direct entries with the same contents. *)
Theorem default_run_leaves_source_folder_untouched cwd input sz (w : world) :
  posixpath.abspath cwd input = input →
  all_sep input = false →
  sentinel ∉ split input →
  same_input input (fs w) (fs (main cwd (Args input None sz) w).1).
Proof.
  intros Habs Hroot Hnosent k [n Hn].
  apply entry_name_spec in Hn as (-> & Hne & Hplain).
  assert (Hshape : input ≠ "" ∧ endswith_sep input = false).
  { rewrite <- Habs in *. unfold posixpath.abspath in *.
    by apply normpath_no_trailing_sep. }
  destruct Hshape as [Hne_in Hend].
  assert (Hjoin : posixpath.join input [n] = input +:+ "/" +:+ n).
  { unfold posixpath.join, posixpath.join_step. simpl.
    assert (startswith_sep n = false) as ->.
    { destruct n as [|c n]; [done|]. simpl in *.
      by apply orb_false_iff in Hplain as [-> _]. }
    by rewrite bool_decide_eq_false_2, Hend. }
  rewrite Hjoin. unfold main. simpl.
  rewrite build_default_output_path_suffix by (by rewrite Habs).
  rewrite Habs.
  destruct (run_frame input sz (input +:+ "_processed") w (input +:+ "/" +:+ n))
    as [Heq|[Hin|(name & _ & Hname & Hout)]]; [done| |].
  - exfalso. apply elem_of_app in Hin as [Hin|Hin%list_elem_of_singleton].
    + by apply entry_not_ancestor_of_sibling in Hin.
    + apply (inj (String.app input)) in Hin. discriminate Hin.
  - exfalso. rewrite out_path_of_plain in Hout by done.
    unfold os.dir_prefix in Hout.
    rewrite bool_decide_eq_false_2 in Hout by (by destruct input).
    rewrite endswith_sep_app in Hout by done. simpl in Hout.
    rewrite !app_assoc' in Hout.
    apply (inj (String.app input)) in Hout. discriminate Hout.
Qed.

End frame.

Lemma run_writes_only_under_output_folder_witness :
  let run := process_source_images (platform := sample.platform)
               (pillow := sample.pillow) "/in" 35 "/out" sample.w0 in
  fs run.1 !! "/out/a.webp" ≠ fs sample.w0 !! "/out/a.webp"
  ∧ ("/out/a.webp" ∈ os.ancestors "/out" ++ ["/out"]
     ∨ ∃ name, name ≠ "" ∧ contains is_sep name = false
               ∧ "/out/a.webp"
                 = os.dir_prefix "/out" +:+ (posixpath.splitext name).1
                     +:+ ".webp").
Proof.
  intros run.
  assert (H1 : fs run.1 !! "/out/a.webp" ≠ fs sample.w0 !! "/out/a.webp").
  { intros Heq. vm_compute in Heq. discriminate Heq. }
  split; [exact H1|].
  exact (run_writes_only_under_output_folder (platform := sample.platform)
           (pillow := sample.pillow) "/in" 35 "/out" sample.w0 "/out/a.webp" H1).
Defined.

Lemma default_run_leaves_source_folder_untouched_witness :
  posixpath.abspath "/home/u" "/in" = "/in"
  ∧ same_input "/in" (fs sample.w0)
      (fs (main (platform := sample.platform) (pillow := sample.pillow)
             "/home/u" (Args "/in" None 35) sample.w0).1).
Proof.
  assert (H1 : posixpath.abspath "/home/u" "/in" = "/in") by reflexivity.
  assert (H2 : all_sep "/in" = false) by reflexivity.
  assert (H3 : sentinel ∉ split "/in").
  { apply (bool_decide_unpack _). vm_compute. exact I. }
  split; [exact H1|].
  exact (default_run_leaves_source_folder_untouched
           (platform := sample.platform) (pillow := sample.pillow)
           "/home/u" "/in" 35 sample.w0 H1 H2 H3).
Defined.

(** ** The listing order *)

Section listing_order.
Context {pillow : Pillow}.








End listing_order.

